(** * Ownership-scoped repository of the recipe API

    Shallow embedding of the recipe / tag / ingredient repository behind
    [recipe/urls.py] (RecipeViewSet, TagViewSet, IngredientViewSet).  The
    views, serializers and models are not part of [src/]: only their tests
    ([recipe/tests/*.py]) and the URL wiring are.  The repository operations
    below are therefore modelled from the spec (section 4.1) and checked
    against the behaviour the tests exercise. *)

From Stdlib Require Import List String ZArith Bool Arith Lia.
From Stdlib Require Import Sorting.Sorted Sorting.Permutation.
Import ListNotations.


(** ** Data model (spec section 3) *)

(** Users are identified by their primary key. *)
Definition UserId := nat.

(** Modelled from the spec: [core.models.Tag] and [core.models.Ingredient]
    (not in the sources), an id, a name and the owning [user]. *)
Record Named := mkNamed {
  n_id : nat;
  n_name : string;
  n_user : UserId
}.

(** Modelled from the spec: [core.models.Recipe] (not in the sources).
    [price] is the fixed-point decimal in cents;
    [description] and [link] are optional strings (blank by default);
    [r_tags] and [r_ingredients] are the many-to-many association sets, as
    lists of ids. *)
Record Recipe := mkRecipe {
  rec_id : nat;
  title : string;
  time_minutes : Z;
  price : Z;
  description : string;
  link : string;
  r_user : UserId;
  r_tags : list nat;
  r_ingredients : list nat
}.

(** The entity store: one table per model and the id sequence. *)
Record Store := mkStore {
  recipes : list Recipe;
  tags : list Named;
  ingredients : list Named;
  next_id : nat
}.

Inductive EntityType := TRecipe | TTag | TIngredient.

Inductive Entity :=
| ERecipe (r : Recipe)
| ETag (t : Named)
| EIngredient (t : Named).

Definition entity_type (e : Entity) : EntityType :=
  match e with ERecipe _ => TRecipe | ETag _ => TTag | EIngredient _ => TIngredient end.

Definition entity_id (e : Entity) : nat :=
  match e with ERecipe r => rec_id r | ETag t | EIngredient t => n_id t end.

Definition entity_user (e : Entity) : UserId :=
  match e with ERecipe r => r_user r | ETag t | EIngredient t => n_user t end.

(** The sort key of the name-ordered resources (a recipe's title). *)
Definition entity_name (e : Entity) : string :=
  match e with ERecipe r => title r | ETag t | EIngredient t => n_name t end.

(** Every stored entity of one type, in table order. *)
Definition entities (s : Store) (T : EntityType) : list Entity :=
  match T with
  | TRecipe => map ERecipe (recipes s)
  | TTag => map ETag (tags s)
  | TIngredient => map EIngredient (ingredients s)
  end.

(** ** Errors and the transactional store monad *)

Inductive Error :=
| NotFound
| ValidationError (field : string).

Inductive result (A : Type) :=
| Ok (a : A)
| Err (e : Error).
Arguments Ok {A} a.
Arguments Err {A} e.

(** A repository step reads and writes the store and may fail. *)
Definition M (A : Type) := Store -> result (A * Store).

Definition ret {A} (a : A) : M A := fun s => Ok (a, s).
Definition fail {A} (e : Error) : M A := fun _ => Err e.
Definition bind {A B} (m : M A) (k : A -> M B) : M B :=
  fun s => match m s with Ok (a, s') => k a s' | Err e => Err e end.
Definition modify (f : Store -> Store) : M unit := fun s => Ok (tt, f s).
Definition get_store : M Store := fun s => Ok (s, s).

Notation "x <- m ;; k" := (bind m (fun x => k))
  (at level 61, m at next level, right associativity).
Notation "m ;; k" := (bind m (fun _ => k))
  (at level 61, right associativity).

(** Each request runs as one transaction (spec section 5): the store it
    leaves is committed on success, and the store is left as it was on
    failure. *)
Definition transaction {A} (m : M A) (s : Store) : Store * result A :=
  match m s with
  | Ok (a, s') => (s', Ok a)
  | Err e => (s, Err e)
  end.

(** ** Ownership-scoped lookup ([get_queryset] filtered by [user]) *)

Definition owned_recipe (P : UserId) (r : Recipe) : bool := Nat.eqb (r_user r) P.
Definition owned_named (P : UserId) (t : Named) : bool := Nat.eqb (n_user t) P.

Definition find_recipe (P : UserId) (id : nat) (l : list Recipe) : option Recipe :=
  find (fun r => Nat.eqb (rec_id r) id && owned_recipe P r) l.

Definition find_named (P : UserId) (id : nat) (l : list Named) : option Named :=
  find (fun t => Nat.eqb (n_id t) id && owned_named P t) l.

(** Modelled from the spec: the detail lookup of [recipe.views] (not in the
    sources), [get(principal, entity_type, id)]: the entity with that id
    among the principal's own entities, [NotFound] otherwise. *)
Definition get_object (P : UserId) (T : EntityType) (id : nat) (s : Store)
  : result Entity :=
  match T with
  | TRecipe =>
      match find_recipe P id (recipes s) with
      | Some r => Ok (ERecipe r) | None => Err NotFound end
  | TTag =>
      match find_named P id (tags s) with
      | Some t => Ok (ETag t) | None => Err NotFound end
  | TIngredient =>
      match find_named P id (ingredients s) with
      | Some t => Ok (EIngredient t) | None => Err NotFound end
  end.

(** ** Listing ([get_queryset().filter(user=...).order_by(...)]) *)

Section InsertionSort.
Variable A : Type.
(** [before x y]: [x] may come before [y] in the result. *)
Variable before : A -> A -> bool.

Fixpoint insert_by (x : A) (l : list A) : list A :=
  match l with
  | [] => [x]
  | y :: l' => if before x y then x :: l else y :: insert_by x l'
  end.

Fixpoint sort_by (l : list A) : list A :=
  match l with
  | [] => []
  | x :: l' => insert_by x (sort_by l')
  end.
End InsertionSort.
Arguments insert_by {A} before x l.
Arguments sort_by {A} before l.

(** [order_by('-id')] *)
Definition id_desc (x y : Recipe) : bool := Nat.leb (rec_id y) (rec_id x).
(** [order_by('-name')] *)
Definition name_desc (x y : Named) : bool := String.leb (n_name y) (n_name x).

(** Modelled from the spec: [get_queryset] of the viewsets in
    [recipe.views] (not in the sources), [list(principal, entity_type)]. *)
Definition list_entities (s : Store) (P : UserId) (T : EntityType) : list Entity :=
  match T with
  | TRecipe => map ERecipe (sort_by id_desc (filter (owned_recipe P) (recipes s)))
  | TTag => map ETag (sort_by name_desc (filter (owned_named P) (tags s)))
  | TIngredient =>
      map EIngredient (sort_by name_desc (filter (owned_named P) (ingredients s)))
  end.

(** ** Request payloads *)

(** The fields a create/update request may carry; [None] is an absent key.
    [p_user] is the owner field a client may try to send. *)
Record Payload := mkPayload {
  p_title : option string;
  p_time_minutes : option Z;
  p_price : option Z;
  p_description : option string;
  p_link : option string;
  p_name : option string;
  p_user : option UserId;
  p_tags : option (list string);
  p_ingredients : option (list string)
}.

Definition empty_payload : Payload :=
  mkPayload None None None None None None None None None.

Inductive Mode := Partial | Full.

(** The payload with its owner field set to [u]. *)
Definition with_user (f : Payload) (u : option UserId) : Payload :=
  mkPayload (p_title f) (p_time_minutes f) (p_price f) (p_description f) (p_link f)
    (p_name f) u (p_tags f) (p_ingredients f).

(** ** Nested-entity reconciliation (spec section 4.1) *)

Inductive Nested := NTags | NIngredients.

Definition table (k : Nested) (s : Store) : list Named :=
  match k with NTags => tags s | NIngredients => ingredients s end.

Definition set_table (k : Nested) (l : list Named) (s : Store) : Store :=
  match k with
  | NTags => mkStore (recipes s) l (ingredients s) (next_id s)
  | NIngredients => mkStore (recipes s) (tags s) l (next_id s)
  end.

(** The other nested table. *)
Definition other (k : Nested) : Nested :=
  match k with NTags => NIngredients | NIngredients => NTags end.

(** Advance the id sequence. *)
Definition bump (s : Store) : Store :=
  mkStore (recipes s) (tags s) (ingredients s) (S (next_id s)).

(** Allocate a fresh primary key. *)
Definition fresh_id : M nat := fun s => Ok (next_id s, bump s).

(** The entity of the owner's table with that name. *)
Definition lookup_name (P : UserId) (n : string) (l : list Named) : option Named :=
  find (fun t => owned_named P t && String.eqb (n_name t) n) l.

(** Modelled from the spec: a tag or ingredient name is a non-empty string
    (spec section 3); a blank one is a [ValidationError] on [name]. *)
Definition name_ok (n : string) : bool :=
  match n with EmptyString => false | String _ _ => true end.

Definition check_name (n : string) : M unit :=
  if name_ok n then ret tt else fail (ValidationError "name").

(** Modelled from the spec: the nested get-or-create of
    [recipe.serializers] (not in the sources), [get_or_create(user=P,
    name=n)]: the descriptor's name is validated, then the owner's entity
    with that name is reused, otherwise one is created. *)
Definition get_or_create (k : Nested) (P : UserId) (n : string) : M nat :=
  check_name n;;
  s <- get_store;;
  match lookup_name P n (table k s) with
  | Some t => ret (n_id t)
  | None =>
      i <- fresh_id;;
      modify (fun s' => set_table k (table k s' ++ [mkNamed i n P]) s');;
      ret i
  end.

Fixpoint resolve_all (k : Nested) (P : UserId) (names : list string) : M (list nat) :=
  match names with
  | [] => ret []
  | n :: ns =>
      i <- get_or_create k P n;;
      is <- resolve_all k P ns;;
      ret (i :: is)
  end.

(** Modelled from the spec: the reconciliation of [recipe.serializers] (not
    in the sources): resolve every descriptor under the owner and collect the
    references into a set. *)
Definition reconcile (k : Nested) (P : UserId) (names : list string) : M (list nat) :=
  is <- resolve_all k P names;;
  ret (nodup Nat.eq_dec is).

(** How many of the owner's entities in a table carry that name. *)
Definition count_named (P : UserId) (n : string) (l : list Named) : nat :=
  List.length (filter (fun t => owned_named P t && String.eqb (n_name t) n) l).

(** ** Validation *)

Definition require {A} (field : string) (v : option A) : M A :=
  match v with Some a => ret a | None => fail (ValidationError field) end.

Definition check_nonneg (field : string) (v : option Z) : M unit :=
  match v with
  | Some z => if Z.ltb z 0 then fail (ValidationError field) else ret tt
  | None => ret tt
  end.

Definition default {A} (d : A) (v : option A) : A :=
  match v with Some a => a | None => d end.

(** The association set after a write: the reconciled set when the key is
    present, the previous set when it is absent. *)
Definition write_assoc (k : Nested) (P : UserId) (v : option (list string))
    (old : list nat) : M (list nat) :=
  match v with
  | Some names => reconcile k P names
  | None => ret old
  end.

(** ** Writes *)

Definition replace_recipe (r : Recipe) (l : list Recipe) : list Recipe :=
  map (fun x => if Nat.eqb (rec_id x) (rec_id r) then r else x) l.

Definition replace_named (t : Named) (l : list Named) : list Named :=
  map (fun x => if Nat.eqb (n_id x) (n_id t) then t else x) l.

Definition find_recipe_m (P : UserId) (id : nat) : M Recipe :=
  s <- get_store;;
  match find_recipe P id (recipes s) with
  | Some r => ret r | None => fail NotFound end.

Definition find_named_m (k : Nested) (P : UserId) (id : nat) : M Named :=
  s <- get_store;;
  match find_named P id (table k s) with
  | Some t => ret t | None => fail NotFound end.

Definition nested_of (T : EntityType) : Nested :=
  match T with TIngredient => NIngredients | _ => NTags end.

Definition wrap_named (T : EntityType) (t : Named) : Entity :=
  match T with TIngredient => EIngredient t | _ => ETag t end.

(** Modelled from the spec: [RecipeSerializer.create] and
    [RecipeViewSet.perform_create] (not in the sources); the owner is the
    principal. *)
Definition create_recipe (P : UserId) (f : Payload) : M Recipe :=
  t <- require "title" (p_title f);;
  tm <- require "time_minutes" (p_time_minutes f);;
  pr <- require "price" (p_price f);;
  check_nonneg "time_minutes" (Some tm);;
  check_nonneg "price" (Some pr);;
  i <- fresh_id;;
  ts <- write_assoc NTags P (p_tags f) [];;
  igs <- write_assoc NIngredients P (p_ingredients f) [];;
  let r := mkRecipe i t tm pr (default EmptyString (p_description f))
             (default EmptyString (p_link f)) P ts igs in
  modify (fun s => mkStore (recipes s ++ [r]) (tags s) (ingredients s) (next_id s));;
  ret r.

(** Modelled from the spec: [TagSerializer] / [IngredientSerializer]
    create (not in the sources); the owner is the principal. *)
Definition create_named (k : Nested) (P : UserId) (f : Payload) : M Named :=
  n <- require "name" (p_name f);;
  check_name n;;
  i <- fresh_id;;
  let t := mkNamed i n P in
  modify (fun s => set_table k (table k s ++ [t]) s);;
  ret t.

(** Modelled from the spec: [RecipeSerializer.update] (not in the sources);
    identity and owner are kept, [p_user] is not read.  Partial mode merges
    the supplied fields, full mode requires the required ones and resets the
    optional ones it does not get. *)
Definition update_recipe (P : UserId) (id : nat) (f : Payload) (mode : Mode)
  : M Recipe :=
  r <- find_recipe_m P id;;
  check_nonneg "time_minutes" (p_time_minutes f);;
  check_nonneg "price" (p_price f);;
  fields <- match mode with
            | Partial =>
                ret (default (title r) (p_title f),
                     default (time_minutes r) (p_time_minutes f),
                     default (price r) (p_price f),
                     default (description r) (p_description f),
                     default (link r) (p_link f))
            | Full =>
                t <- require "title" (p_title f);;
                tm <- require "time_minutes" (p_time_minutes f);;
                pr <- require "price" (p_price f);;
                ret (t, tm, pr, default EmptyString (p_description f),
                     default EmptyString (p_link f))
            end;;
  let '(t, tm, pr, d, l) := fields in
  ts <- write_assoc NTags (r_user r) (p_tags f) (r_tags r);;
  igs <- write_assoc NIngredients (r_user r) (p_ingredients f) (r_ingredients r);;
  let r' := mkRecipe (rec_id r) t tm pr d l (r_user r) ts igs in
  modify (fun s => mkStore (replace_recipe r' (recipes s)) (tags s) (ingredients s)
                     (next_id s));;
  ret r'.

(** Modelled from the spec: the tag and ingredient update (not in the
    sources); the name is merged or required, id and owner are kept. *)
Definition update_named (k : Nested) (P : UserId) (id : nat) (f : Payload)
    (mode : Mode) : M Named :=
  t <- find_named_m k P id;;
  n <- match mode with
       | Partial => ret (default (n_name t) (p_name f))
       | Full => require "name" (p_name f)
       end;;
  check_name n;;
  let t' := mkNamed (n_id t) n (n_user t) in
  modify (fun s => set_table k (replace_named t' (table k s)) s);;
  ret t'.

(** Removing a tag or ingredient drops it from every association set; it
    never deletes a recipe. *)
Definition unlink (k : Nested) (id : nat) (r : Recipe) : Recipe :=
  match k with
  | NTags => mkRecipe (rec_id r) (title r) (time_minutes r) (price r)
               (description r) (link r) (r_user r)
               (filter (fun j => negb (Nat.eqb j id)) (r_tags r)) (r_ingredients r)
  | NIngredients => mkRecipe (rec_id r) (title r) (time_minutes r) (price r)
               (description r) (link r) (r_user r) (r_tags r)
               (filter (fun j => negb (Nat.eqb j id)) (r_ingredients r))
  end.

(** Modelled from the spec: [RecipeViewSet.destroy] (not in the sources).
    Deleting a recipe removes its association sets with it; the associated
    tags and ingredients stay. *)
Definition delete_recipe (P : UserId) (id : nat) : M unit :=
  r <- find_recipe_m P id;;
  modify (fun s => mkStore (filter (fun x => negb (Nat.eqb (rec_id x) (rec_id r)))
                              (recipes s)) (tags s) (ingredients s) (next_id s)).

(** Modelled from the spec: the tag and ingredient delete (not in the
    sources). *)
Definition delete_named (k : Nested) (P : UserId) (id : nat) : M unit :=
  t <- find_named_m k P id;;
  modify (fun s =>
    let s1 := set_table k (filter (fun x => negb (Nat.eqb (n_id x) (n_id t)))
                             (table k s)) s in
    mkStore (map (unlink k (n_id t)) (recipes s1)) (tags s1) (ingredients s1)
      (next_id s1)).

(** ** The repository API, one transaction per call *)

(** Modelled from the spec: [create(principal, entity_type, fields)]. *)
Definition create (s : Store) (P : UserId) (T : EntityType) (f : Payload)
  : Store * result Entity :=
  transaction
    (match T with
     | TRecipe => r <- create_recipe P f;; ret (ERecipe r)
     | _ => t <- create_named (nested_of T) P f;; ret (wrap_named T t)
     end) s.

(** Modelled from the spec: [update(principal, entity_type, id, fields,
    mode)]. *)
Definition update (s : Store) (P : UserId) (T : EntityType) (id : nat) (f : Payload)
    (mode : Mode) : Store * result Entity :=
  transaction
    (match T with
     | TRecipe => r <- update_recipe P id f mode;; ret (ERecipe r)
     | _ => t <- update_named (nested_of T) P id f mode;; ret (wrap_named T t)
     end) s.

(** Modelled from the spec: [delete(principal, entity_type, id)]. *)
Definition delete (s : Store) (P : UserId) (T : EntityType) (id : nat)
  : Store * result unit :=
  transaction
    (match T with
     | TRecipe => delete_recipe P id
     | _ => delete_named (nested_of T) P id
     end) s.

(** ** Fixtures of [recipe/tests/tests.py] *)

(** [TEST_PAYLOAD] with the given tag descriptors ([price] 5.25 in cents). *)
Definition test_payload (tag_names : option (list string)) : Payload :=
  mkPayload (Some "Sample recipe title"%string) (Some 22%Z) (Some 525%Z)
    (Some "Sample description"%string) (Some "http//example.com/recipe.pdf"%string)
    None None tag_names None.

(** [test_create_recipe_with_existing_tags]: user 1 already owns the tag
    "Chinese"; user 2 owns a tag of the same name. *)
Definition chinese_store : Store :=
  mkStore [] [mkNamed 0 "Chinese" 1; mkNamed 1 "Chinese" 2] [] 2.

Definition empty_store : Store := mkStore [] [] [] 0.

Definition blank_recipe : Recipe :=
  mkRecipe 0 EmptyString 0 0 EmptyString EmptyString 0 [] [].

(** The recipe a store holds first. *)
Definition first_recipe (s : Store) : Recipe :=
  match recipes s with r :: _ => r | [] => blank_recipe end.

(** [test_create_recipe_with_new_tag]: tags "Thai" and "Dinner". *)
Definition thai_payload : Payload := test_payload (Some ["Thai"; "Dinner"]%string).

Definition thai_store1 : Store :=
  Eval vm_compute in fst (create empty_store 1 TRecipe thai_payload).
Definition thai_recipe1 : Recipe := Eval vm_compute in first_recipe thai_store1.
Definition thai_store2 : Store :=
  Eval vm_compute in fst (create thai_store1 1 TRecipe thai_payload).
Definition thai_recipe2 : Recipe :=
  Eval vm_compute in nth 1 (recipes thai_store2) blank_recipe.

(** [test_create_tag_on_update]: a PATCH with the tag "Lunch". *)
Definition lunch_payload : Payload :=
  mkPayload None None None None None None None (Some ["Lunch"]%string) None.
Definition lunch_store : Store :=
  Eval vm_compute in fst (update thai_store1 1 TRecipe 0 lunch_payload Partial).
Definition lunch_recipe : Recipe := Eval vm_compute in first_recipe lunch_store.

(** [test_full_update]: a PUT of every recipe field. *)
Definition full_update_payload : Payload :=
  mkPayload (Some "New Sample recipe title"%string) (Some 30%Z) (Some 625%Z)
    (Some "New Sample description"%string) (Some "http//example.com/new_recipe.pdf"%string)
    None None None None.

(** [test_update_tag]: the name "Dessert". *)
Definition dessert_payload : Payload :=
  mkPayload None None None None None (Some "Dessert"%string) None None None.

(** [test_partial_update] and [test_update_user_returns_error]: a PATCH of
    the title that also names user 2 as owner. *)
Definition title_payload : Payload :=
  mkPayload (Some "new recipe title"%string) None None None None None (Some 2)
    None None.
Definition title_store : Store :=
  Eval vm_compute in fst (update thai_store1 1 TRecipe 0 title_payload Partial).
Definition title_recipe : Recipe := Eval vm_compute in first_recipe title_store.

(** The store [reconcile] leaves for "Chinese" and "Japanese" under user 1. *)
Definition chinese_reconciled : Store :=
  Eval vm_compute in
    match reconcile NTags 1 ["Chinese"; "Japanese"]%string chinese_store with
    | Ok (_, s) => s
    | Err _ => chinese_store
    end.

(** ** Well-formed stores: primary keys are unique in each table *)

Definition wf (s : Store) : Prop :=
  NoDup (map rec_id (recipes s)) /\ NoDup (map n_id (tags s))
  /\ NoDup (map n_id (ingredients s)).

(** Every primary key lies below the id sequence. *)
Definition keys_below (s : Store) : Prop :=
  Forall (fun i => i < next_id s) (map rec_id (recipes s)) /\
  Forall (fun i => i < next_id s) (map n_id (tags s)) /\
  Forall (fun i => i < next_id s) (map n_id (ingredients s)).

(** A recipe's association set with one nested table. *)
Definition assoc (k : Nested) (r : Recipe) : list nat :=
  match k with NTags => r_tags r | NIngredients => r_ingredients r end.

(** The scoped lookup behind [find_recipe] and [find_named], over any table
    with a key and an owner. *)
Definition scoped_find {A} (key : A -> nat) (own : A -> UserId) (P : UserId)
    (id : nat) (l : list A) : option A :=
  find (fun x => Nat.eqb (key x) id && Nat.eqb (own x) P) l.

(** The principal's scoped lookup of that id misses. *)
Definition scoped_missing (s : Store) (P : UserId) (T : EntityType) (id : nat) : Prop :=
  match T with
  | TRecipe => find_recipe P id (recipes s) = None
  | TTag => find_named P id (tags s) = None
  | TIngredient => find_named P id (ingredients s) = None
  end.

(** ** The test helper [create_recipe] of [recipe/tests/tests.py]

    The helper talks to the Django ORM directly, without the API: it
    creates the recipe row, then looks up or creates each tag descriptor
    with [Tag.objects.get_or_create] and finally sets the recipe's tags.
    Every ORM call writes to the store at once, so an exception raised
    part-way leaves the earlier writes in place. *)

Module RecipeTests.

(** The module-level dict [TEST_PAYLOAD] (and its copies): the five recipe
    fields and a ['tags'] key, [None] while the key is absent. *)
Record PayloadDict := mkDict {
  d_title : string;
  d_time_minutes : Z;
  d_price : Z;
  d_description : string;
  d_link : string;
  d_tags : option (list string)
}.

(** [TEST_PAYLOAD] as the module defines it; [Decimal('5.25')] in cents. *)
Definition TEST_PAYLOAD : PayloadDict :=
  mkDict "Sample recipe title"%string 22 525 "Sample description"%string
    "http//example.com/recipe.pdf"%string None.

(** The keyword arguments [**params] of the helper; a tag descriptor
    [{'name': n}] is its name [n]. *)
Record Params := mkParams {
  prm_title : option string;
  prm_time_minutes : option Z;
  prm_price : option Z;
  prm_description : option string;
  prm_link : option string;
  prm_tags : option (list string)
}.

Definition no_params : Params := mkParams None None None None None None.

(** [defaults.update(params)]: every given keyword overrides the key. *)
Definition dict_update (d : PayloadDict) (p : Params) : PayloadDict :=
  mkDict (default (d_title d) (prm_title p))
    (default (d_time_minutes d) (prm_time_minutes p))
    (default (d_price d) (prm_price p))
    (default (d_description d) (prm_description p))
    (default (d_link d) (prm_link p))
    (match prm_tags p with Some t => Some t | None => d_tags d end).

(** [payload['tags'] = [...]] on the dict itself. *)
Definition set_tags (d : PayloadDict) (ts : list string) : PayloadDict :=
  mkDict (d_title d) (d_time_minutes d) (d_price d) (d_description d) (d_link d)
    (Some ts).

(** [test_create_recipe_with_existing_tags] binds [payload = TEST_PAYLOAD]
    (no copy) and sets its ['tags']: the module-level dict after that test. *)
Definition TEST_PAYLOAD_after_existing_tags : PayloadDict :=
  set_tags TEST_PAYLOAD ["Chinese"; "Japanese"]%string.

Inductive OrmError := MultipleObjectsReturned.

Inductive oresult (A : Type) :=
| OOk (a : A)
| ORaise (e : OrmError).
Arguments OOk {A} a.
Arguments ORaise {A} e.

(** An ORM step: its writes are in the store it returns, also when it
    raises. *)
Definition OM (A : Type) := Store -> oresult A * Store.

(** [Tag.objects.get_or_create(user=P, name=n)]: [get] the one matching
    row, create it when there is none, raise when there are several. *)
Definition get_or_create_tag (P : UserId) (n : string) : OM Named := fun s =>
  match filter (fun t => owned_named P t && String.eqb (n_name t) n) (tags s) with
  | [] =>
      let t := mkNamed (next_id s) n P in
      (OOk t, mkStore (recipes s) (tags s ++ [t]) (ingredients s) (S (next_id s)))
  | [t] => (OOk t, s)
  | _ :: _ :: _ => (ORaise MultipleObjectsReturned, s)
  end.

(** The loop [for tag_data in tags: ... tag_objects.append(tag)]. *)
Fixpoint get_or_create_all (P : UserId) (names : list string) : OM (list Named) :=
  fun s =>
  match names with
  | [] => (OOk [], s)
  | n :: ns =>
      match get_or_create_tag P n s with
      | (OOk t, s1) =>
          match get_or_create_all P ns s1 with
          | (OOk ts, s2) => (OOk (t :: ts), s2)
          | (ORaise e, s2) => (ORaise e, s2)
          end
      | (ORaise e, s1) => (ORaise e, s1)
      end
  end.

(** The row [Recipe.objects.create(user=P, **d)] inserts: the next key,
    the dict's fields, no tags and no ingredients. *)
Definition new_recipe_row (P : UserId) (d : PayloadDict) (s : Store) : Recipe :=
  mkRecipe (next_id s) (d_title d) (d_time_minutes d) (d_price d)
    (d_description d) (d_link d) P [] [].

(** [Recipe.objects.create(user=P, **defaults)]. *)
Definition objects_create_recipe (P : UserId) (d : PayloadDict) : OM Recipe := fun s =>
  let r := new_recipe_row P d s in
  (OOk r, mkStore (recipes s ++ [r]) (tags s) (ingredients s) (S (next_id s))).

(** [recipe.tags.set(tag_objects)]: the association becomes the set of
    those tags. *)
Definition tags_set (r : Recipe) (objs : list Named) : OM Recipe := fun s =>
  let r' := mkRecipe (rec_id r) (title r) (time_minutes r) (price r)
              (description r) (link r) (r_user r)
              (nodup Nat.eq_dec (map n_id objs)) (r_ingredients r) in
  (OOk r', mkStore (replace_recipe r' (recipes s)) (tags s) (ingredients s)
             (next_id s)).

(** The tag descriptors the helper uses: [defaults.pop('tags', [])]. *)
Definition helper_tags (payload : PayloadDict) (params : Params) : list string :=
  default [] (d_tags (dict_update payload params)).

(** [create_recipe(user, **params)], reading the module-level dict
    [payload]. *)
Definition create_recipe (payload : PayloadDict) (P : UserId) (params : Params)
  : OM Recipe := fun s =>
  let defaults := dict_update payload params in
  let tags := default [] (d_tags defaults) in
  match objects_create_recipe P defaults s with
  | (ORaise e, s1) => (ORaise e, s1)
  | (OOk recipe, s1) =>
      match tags with
      | [] => (OOk recipe, s1)
      | _ :: _ =>
          match get_or_create_all P tags s1 with
          | (OOk objs, s2) => tags_set recipe objs s2
          | (ORaise e, s2) => (ORaise e, s2)
          end
      end
  end.

(** The dict objects of the Python heap the test module uses; a reference
    is an index into the list. *)
Definition Heap := list PayloadDict.

Definition heap_get (h : Heap) (r : nat) : option PayloadDict := nth_error h r.

(** Overwrite the object at reference [r]; a reference out of range (not
    one Python can hold) leaves the heap as it is. *)
Fixpoint heap_put (h : Heap) (r : nat) (d : PayloadDict) : Heap :=
  match h, r with
  | [], _ => []
  | _ :: h', O => d :: h'
  | x :: h', S r' => x :: heap_put h' r' d
  end.

(** The object the module-level name [TEST_PAYLOAD] is bound to. *)
Definition TEST_PAYLOAD_ref : nat := 0.

(** The heap once the test module is imported. *)
Definition module_heap : Heap := [TEST_PAYLOAD].

(** [d['tags'] = ts] on the dict object at reference [r]. *)
Definition dict_setitem_tags (h : Heap) (r : nat) (ts : list string) : Heap :=
  match heap_get h r with
  | Some d => heap_put h r (set_tags d ts)
  | None => h
  end.

(** The first statements of [test_create_recipe_with_existing_tags]:
    [payload = TEST_PAYLOAD] binds the local name to the object the global
    name is bound to (no copy is made), and
    [payload['tags'] = [...]] writes into that object. *)
Definition existing_tags_test_setup (h : Heap) : Heap :=
  let payload := TEST_PAYLOAD_ref in
  dict_setitem_tags h payload ["Chinese"; "Japanese"]%string.

(** A call [create_recipe(user, **params)] with the heap [h]: the helper
    reads the global [TEST_PAYLOAD], whose [copy()] has the dict's current
    contents. *)
Definition create_recipe_call (h : Heap) (P : UserId) (params : Params) (s : Store)
  : option (oresult Recipe * Store) :=
  match heap_get h TEST_PAYLOAD_ref with
  | Some payload => Some (create_recipe payload P params s)
  | None => None
  end.

(** A store where user 1 owns two tags named "Chinese". *)
Definition twice_chinese_store : Store :=
  mkStore [] [mkNamed 0 "Chinese" 1; mkNamed 1 "Chinese" 1] [] 2.

(** The helper called without keywords after
    [test_create_recipe_with_existing_tags], for user 1 of [chinese_store]. *)
Definition leaked_run : oresult Recipe * Store :=
  Eval vm_compute in create_recipe TEST_PAYLOAD_after_existing_tags 1 no_params chinese_store.
Definition leaked_recipe : Recipe :=
  Eval vm_compute in match fst leaked_run with OOk r => r | ORaise _ => blank_recipe end.
Definition leaked_store : Store := Eval vm_compute in snd leaked_run.

(** The same call on [twice_chinese_store]. *)
Definition ambiguous_store : Store :=
  Eval vm_compute in snd (create_recipe TEST_PAYLOAD_after_existing_tags 1 no_params
                            twice_chinese_store).

End RecipeTests.

(** ** The [wait_for_db] management command *)

Module WaitForDb.

(** What one [self.check(...)] call taking only keywords [check] accepts
    does, given the database at that attempt: return, raise the
    [OperationalError] of [pyscopg2] (imported as [Pyscopg2OpError]) or of
    [django.db.utils], or raise another exception. *)
Inductive CheckOutcome :=
| CheckPassed
| RaisePyscopg2OpError
| RaiseOperationalError
| RaiseOther (exn : string).

(** A line written to [self.stdout]; [Success] is wrapped in
    [self.style.SUCCESS]. *)
Inductive OutLine :=
| Plain (s : string)
| Success (s : string).

(** How the run ends: it returns, an exception escapes, or the loop is
    still waiting when the given database states run out. *)
Inductive Ending := Returned | Propagated (exn : string) | StillWaiting.

Definition waiting_msg : string := "Waiting for database..."%string.
Definition unavailable_msg : string := "Database unavailable, waiting 1 sec..."%string.
Definition available_msg : string := "Database available!"%string.

(** The keyword parameters of Django's [BaseCommand.check]. *)
Definition check_params : list string :=
  ["app_configs"; "tags"; "display_num_errors"; "include_deployment_checks";
   "fail_level"; "databases"]%string.

(** Calling [self.check] with those keyword names when the database would
    make the call do [db]: an unknown keyword raises [TypeError] before any
    check runs. *)
Definition call_check (kwargs : list string) (db : CheckOutcome) : CheckOutcome :=
  if forallb (fun k => existsb (String.eqb k) check_params) kwargs then db
  else RaiseOther "TypeError"%string.

(** The keywords of the call on line 19, [self.check(dataases=["dafault"])]. *)
Definition handle_check_kwargs : list string := ["dataases"%string].

(** The [while db_up is False] loop over the database states of the
    successive attempts: the lines it writes, the number of [time.sleep(1)]
    calls and how it ends.  The success line is written after the loop. *)
Fixpoint wait_loop (db : list CheckOutcome) : list OutLine * nat * Ending :=
  match db with
  | [] => ([], 0, StillWaiting)
  | d :: ds =>
      match call_check handle_check_kwargs d with
      | CheckPassed => ([Success available_msg], 0, Returned)
      | RaisePyscopg2OpError | RaiseOperationalError =>
          let '(o, n, e) := wait_loop ds in (Plain unavailable_msg :: o, S n, e)
      | RaiseOther x => ([], 0, Propagated x)
      end
  end.

(** [Command.handle]. *)
Definition handle (db : list CheckOutcome) : list OutLine * nat * Ending :=
  let '(o, n, e) := wait_loop db in (Plain waiting_msg :: o, n, e).

(** Running [manage.py wait_for_db]: Django first imports the command's
    module, whose line 8 [from pyscopg2 import OperationalError] raises
    [ModuleNotFoundError] unless a module [pyscopg2] can be found (the
    PostgreSQL driver is [psycopg2]); only then is [handle] called. *)
Definition run_wait_for_db (pyscopg2_found : bool) (db : list CheckOutcome)
  : list OutLine * nat * Ending :=
  if pyscopg2_found then handle db
  else ([], 0, Propagated "ModuleNotFoundError"%string).

End WaitForDb.

(** ** Lemmas on scoped lookup *)

Section ScopedFind.
Variable A : Type.
Variable key : A -> nat.
Variable own : A -> UserId.

Lemma NoDup_map_inj (l : list A) x y :
  NoDup (map key l) -> In x l -> In y l -> key x = key y -> x = y.
Proof.
  induction l as [|a l IH]; simpl; intros Hnd Hx Hy Hk; [contradiction|].
  inversion Hnd as [|? ? Hnin Hnd']; subst.
  destruct Hx as [<-|Hx], Hy as [<-|Hy]; auto.
  - exfalso; apply Hnin; rewrite Hk; apply in_map; exact Hy.
  - exfalso; apply Hnin; rewrite <- Hk; apply in_map; exact Hx.
Qed.

Lemma scoped_find_foreign (l : list A) x P :
  NoDup (map key l) -> In x l -> own x <> P -> scoped_find key own P (key x) l = None.
Proof.
  intros Hnd Hin Hown. unfold scoped_find.
  destruct (find _ l) as [y|] eqn:Hf; [|reflexivity].
  apply find_some in Hf as [Hy Hb].
  apply andb_true_iff in Hb as [Hk Ho].
  apply Nat.eqb_eq in Hk; apply Nat.eqb_eq in Ho.
  assert (y = x) by (apply (NoDup_map_inj l); auto). subst. contradiction.
Qed.

Lemma scoped_find_absent (l : list A) id P :
  ~ In id (map key l) -> scoped_find key own P id l = None.
Proof.
  intros Hnin. unfold scoped_find.
  destruct (find _ l) as [y|] eqn:Hf; [|reflexivity].
  apply find_some in Hf as [Hy Hb].
  apply andb_true_iff in Hb as [Hk _]. apply Nat.eqb_eq in Hk.
  exfalso; apply Hnin; rewrite <- Hk; apply in_map; exact Hy.
Qed.

Lemma scoped_find_some (l : list A) id P x :
  scoped_find key own P id l = Some x -> In x l /\ key x = id /\ own x = P.
Proof.
  unfold scoped_find. intros Hf.
  apply find_some in Hf as [Hx Hb].
  apply andb_true_iff in Hb as [Hk Ho].
  apply Nat.eqb_eq in Hk; apply Nat.eqb_eq in Ho. auto.
Qed.
End ScopedFind.

Lemma find_recipe_scoped P id l :
  find_recipe P id l = scoped_find rec_id r_user P id l.
Proof. reflexivity. Qed.

Lemma find_named_scoped P id l :
  find_named P id l = scoped_find n_id n_user P id l.
Proof. reflexivity. Qed.

(** A lookup that misses makes every write fail with [NotFound] and leave
    the store as it was. *)
Lemma update_recipe_missing s P id f mode :
  find_recipe P id (recipes s) = None ->
  update s P TRecipe id f mode = (s, Err NotFound).
Proof.
  intros H. cbv [update transaction update_recipe find_recipe_m bind get_store].
  rewrite H. reflexivity.
Qed.

Lemma update_named_missing s P T id f mode :
  T <> TRecipe -> find_named P id (table (nested_of T) s) = None ->
  update s P T id f mode = (s, Err NotFound).
Proof.
  intros HT H. destruct T; [congruence| |];
  cbv [update transaction update_named find_named_m bind get_store];
  simpl in H |- *; rewrite H; reflexivity.
Qed.

Lemma delete_recipe_missing s P id :
  find_recipe P id (recipes s) = None -> delete s P TRecipe id = (s, Err NotFound).
Proof.
  intros H. cbv [delete transaction delete_recipe find_recipe_m bind get_store].
  rewrite H. reflexivity.
Qed.

Lemma delete_named_missing s P T id :
  T <> TRecipe -> find_named P id (table (nested_of T) s) = None ->
  delete s P T id = (s, Err NotFound).
Proof.
  intros HT H. destruct T; [congruence| |];
  cbv [delete transaction delete_named find_named_m bind get_store];
  simpl in H |- *; rewrite H; reflexivity.
Qed.

(** The scoped lookup of every type misses on an id held only by another
    principal. *)
Lemma lookup_foreign_none s P e :
  wf s -> In e (entities s (entity_type e)) -> entity_user e <> P ->
  scoped_missing s P (entity_type e) (entity_id e).
Proof.
  intros (H1 & H2 & H3) Hin Hown.
  destruct e as [r|t|t]; simpl in *; apply in_map_iff in Hin as (x & Hx & Hin);
    inversion Hx; subst.
  - apply (scoped_find_foreign _ rec_id r_user); auto.
  - apply (scoped_find_foreign _ n_id n_user); auto.
  - apply (scoped_find_foreign _ n_id n_user); auto.
Qed.

Lemma lookup_absent_none s P T id :
  ~ In id (map entity_id (entities s T)) ->
  scoped_missing s P T id.
Proof.
  intros Hnin. destruct T; simpl in *; rewrite map_map in Hnin; simpl in Hnin.
  - apply (scoped_find_absent _ rec_id r_user); auto.
  - apply (scoped_find_absent _ n_id n_user); auto.
  - apply (scoped_find_absent _ n_id n_user); auto.
Qed.

(** Get, update and delete all answer [NotFound], leaving the store as it
    was, wherever the scoped lookup misses. *)
Lemma ops_missing s P T id f mode :
  scoped_missing s P T id ->
  get_object P T id s = Err NotFound /\
  update s P T id f mode = (s, Err NotFound) /\
  delete s P T id = (s, Err NotFound).
Proof.
  intros H. destruct T.
  - split; [simpl; rewrite H; reflexivity|].
    split; [apply update_recipe_missing | apply delete_recipe_missing]; exact H.
  - split; [simpl in *; rewrite H; reflexivity|].
    split; [apply update_named_missing | apply delete_named_missing];
      first [discriminate | exact H].
  - split; [simpl in *; rewrite H; reflexivity|].
    split; [apply update_named_missing | apply delete_named_missing];
      first [discriminate | exact H].
Qed.

(** ** Sorting lemmas *)

Section SortProps.
Variable A : Type.
Variable before : A -> A -> bool.
Hypothesis before_total : forall x y, before x y = false -> before y x = true.

Lemma insert_by_perm x l : Permutation (insert_by before x l) (x :: l).
Proof.
  induction l as [|y l IH]; simpl; [reflexivity|].
  destruct (before x y); [reflexivity|].
  rewrite IH. apply perm_swap.
Qed.

Lemma sort_by_perm l : Permutation (sort_by before l) l.
Proof.
  induction l as [|x l IH]; simpl; [reflexivity|].
  rewrite insert_by_perm. now apply perm_skip.
Qed.

Let R x y := before x y = true.

Lemma insert_by_hd z x l :
  HdRel R z l -> R z x -> HdRel R z (insert_by before x l).
Proof.
  destruct l as [|y l]; simpl; intros Hh Hz.
  - constructor; exact Hz.
  - destruct (before x y); constructor; [exact Hz|]. now inversion Hh.
Qed.

Lemma insert_by_sorted x l : Sorted R l -> Sorted R (insert_by before x l).
Proof.
  induction 1 as [|y l Hs IH Hh]; simpl.
  - repeat constructor.
  - destruct (before x y) eqn:Hb.
    + constructor; [constructor; auto | constructor; exact Hb].
    + constructor; [exact IH|]. apply insert_by_hd; [exact Hh|].
      apply before_total; exact Hb.
Qed.

Lemma sort_by_sorted l : Sorted R (sort_by before l).
Proof.
  induction l as [|x l IH]; simpl; [constructor|]. now apply insert_by_sorted.
Qed.
End SortProps.

Lemma Sorted_map {A B} (f : A -> B) (R : B -> B -> Prop) (l : list A) :
  Sorted (fun x y => R (f x) (f y)) l -> Sorted R (map f l).
Proof.
  induction 1 as [|x l Hs IH Hh]; simpl; constructor; [exact IH|].
  destruct Hh; simpl; constructor; assumption.
Qed.

Lemma Sorted_weaken {A} (R R' : A -> A -> Prop) (l : list A) :
  (forall x y, R x y -> R' x y) -> Sorted R l -> Sorted R' l.
Proof.
  intros HR. induction 1 as [|x l Hs IH Hh]; constructor; [exact IH|].
  destruct Hh; constructor; auto.
Qed.

Lemma id_desc_total x y : id_desc x y = false -> id_desc y x = true.
Proof.
  unfold id_desc. intros H. apply Nat.leb_gt in H. apply Nat.leb_le. lia.
Qed.

Lemma name_desc_total x y : name_desc x y = false -> name_desc y x = true.
Proof.
  unfold name_desc. intros H.
  destruct (String.leb_total (n_name y) (n_name x)); congruence.
Qed.

(** Membership in a listing: exactly the principal's entities of that type. *)
Lemma In_list_entities s P T x :
  In x (list_entities s P T) <-> In x (entities s T) /\ entity_user x = P.
Proof.
  destruct T; simpl; rewrite !in_map_iff; split.
  - intros (r & <- & Hr). rewrite (sort_by_perm _ id_desc) in Hr.
    apply filter_In in Hr as [Hr Ho]. unfold owned_recipe in Ho.
    apply Nat.eqb_eq in Ho. eauto.
  - intros ((r & <- & Hr) & Ho). exists r. split; [reflexivity|].
    rewrite (sort_by_perm _ id_desc). apply filter_In. split; [exact Hr|].
    apply Nat.eqb_eq; exact Ho.
  - intros (r & <- & Hr). rewrite (sort_by_perm _ name_desc) in Hr.
    apply filter_In in Hr as [Hr Ho]. unfold owned_named in Ho.
    apply Nat.eqb_eq in Ho. eauto.
  - intros ((r & <- & Hr) & Ho). exists r. split; [reflexivity|].
    rewrite (sort_by_perm _ name_desc). apply filter_In. split; [exact Hr|].
    apply Nat.eqb_eq; exact Ho.
  - intros (r & <- & Hr). rewrite (sort_by_perm _ name_desc) in Hr.
    apply filter_In in Hr as [Hr Ho]. unfold owned_named in Ho.
    apply Nat.eqb_eq in Ho. eauto.
  - intros ((r & <- & Hr) & Ho). exists r. split; [reflexivity|].
    rewrite (sort_by_perm _ name_desc). apply filter_In. split; [exact Hr|].
    apply Nat.eqb_eq; exact Ho.
Qed.

(** ** Reconciliation lemmas *)

Lemma find_app {A} (f : A -> bool) l1 l2 :
  find f (l1 ++ l2) = match find f l1 with Some x => Some x | None => find f l2 end.
Proof. induction l1 as [|a l1 IH]; simpl; [reflexivity|]. destruct (f a); auto. Qed.

Lemma lookup_name_some P n l t :
  lookup_name P n l = Some t -> In t l /\ n_user t = P /\ n_name t = n.
Proof.
  unfold lookup_name. intros H. apply find_some in H as [Hin Hb].
  apply andb_true_iff in Hb as [Ho Hn]. unfold owned_named in Ho.
  apply Nat.eqb_eq in Ho. apply String.eqb_eq in Hn. auto.
Qed.

Lemma lookup_name_app P n l l' t :
  lookup_name P n l = Some t -> lookup_name P n (l ++ l') = Some t.
Proof. unfold lookup_name. rewrite find_app. intros ->. reflexivity. Qed.

Lemma lookup_name_app_none P n l l' :
  lookup_name P n l = None -> lookup_name P n (l ++ l') = lookup_name P n l'.
Proof. unfold lookup_name. rewrite find_app. intros ->. reflexivity. Qed.

Lemma table_set_table k l s : table k (set_table k l s) = l.
Proof. destruct k; reflexivity. Qed.

Lemma table_other_set_table k l s : table (other k) (set_table k l s) = table (other k) s.
Proof. destruct k; reflexivity. Qed.

Lemma recipes_set_table k l s : recipes (set_table k l s) = recipes s.
Proof. destruct k; reflexivity. Qed.

(** One descriptor: reuse the owner's entity with that name, or append a new
    one under the next id. *)
Lemma get_or_create_eq k P n s :
  name_ok n = true ->
  get_or_create k P n s =
  match lookup_name P n (table k s) with
  | Some t => Ok (n_id t, s)
  | None =>
      let s1 := mkStore (recipes s) (tags s) (ingredients s) (S (next_id s)) in
      Ok (next_id s, set_table k (table k s1 ++ [mkNamed (next_id s) n P]) s1)
  end.
Proof.
  intros Hn. cbv [get_or_create check_name bind get_store ret fail fresh_id modify].
  rewrite Hn. destruct (lookup_name P n (table k s)); reflexivity.
Qed.

(** A blank descriptor name is rejected before the table is read. *)
Lemma get_or_create_blank k P n s :
  name_ok n = false -> get_or_create k P n s = Err (ValidationError "name").
Proof.
  intros Hn. cbv [get_or_create check_name bind get_store ret fail fresh_id modify].
  rewrite Hn. reflexivity.
Qed.

(** A resolution that succeeds had only non-blank names. *)
Lemma resolve_all_names_ok k P names :
  forall s ids s', resolve_all k P names s = Ok (ids, s') -> forallb name_ok names = true.
Proof.
  induction names as [|n ns IH]; intros s ids s' H; [reflexivity|].
  change (resolve_all k P (n :: ns) s) with
    (bind (get_or_create k P n) (fun i => bind (resolve_all k P ns)
                                            (fun is => ret (i :: is))) s) in H.
  unfold bind at 1 in H. destruct (name_ok n) eqn:Hn.
  - simpl. rewrite Hn. simpl.
    destruct (get_or_create k P n s) as [[i s1]|e]; [|discriminate].
    unfold bind in H. destruct (resolve_all k P ns s1) as [[is s2]|e] eqn:E; [|discriminate].
    exact (IH _ _ _ E).
  - rewrite get_or_create_blank in H by exact Hn. discriminate.
Qed.

Lemma table_bump k s :
  table k (mkStore (recipes s) (tags s) (ingredients s) (S (next_id s))) = table k s.
Proof. destruct k; reflexivity. Qed.

(** What [resolve_all] does: the table of kind [k] only grows, by entities
    of the owner whose names were not yet taken, one per name; every
    descriptor resolves to the owner's entity with its name in the final
    table; lookups that hit before still hit the same entity. *)
Lemma resolve_all_spec k P names s :
  forallb name_ok names = true ->
  exists ids s',
    resolve_all k P names s = Ok (ids, s') /\
    recipes s' = recipes s /\
    table (other k) s' = table (other k) s /\
    (exists new, table k s' = table k s ++ new /\ NoDup (map n_name new) /\
       forall t, In t new ->
         n_user t = P /\ In (n_name t) names /\ lookup_name P (n_name t) (table k s) = None) /\
    Forall2 (fun n i => exists t, lookup_name P n (table k s') = Some t /\ n_id t = i)
      names ids /\
    (forall n t, lookup_name P n (table k s) = Some t ->
                 lookup_name P n (table k s') = Some t).
Proof.
  revert s. induction names as [|n ns IH]; intros s Hok.
  - exists [], s. split; [reflexivity|]. split; [reflexivity|]. split; [reflexivity|].
    split; [|split; [constructor | auto]].
    exists []. rewrite app_nil_r. split; [reflexivity|]. split; [constructor|].
    intros t [].
  - (* the first descriptor *)
    simpl in Hok. apply andb_true_iff in Hok as [Hn0 Hok].
    assert (Hstep : exists i s1 new1,
      get_or_create k P n s = Ok (i, s1) /\
      recipes s1 = recipes s /\ table (other k) s1 = table (other k) s /\
      table k s1 = table k s ++ new1 /\
      (forall t, In t new1 -> n_user t = P /\ n_name t = n /\
                              lookup_name P n (table k s) = None) /\
      List.length new1 <= 1 /\
      (exists t, lookup_name P n (table k s1) = Some t /\ n_id t = i)).
    { rewrite get_or_create_eq by exact Hn0.
      destruct (lookup_name P n (table k s)) as [t|] eqn:Hl.
      - exists (n_id t), s, []. rewrite app_nil_r.
        do 4 (split; [reflexivity|]). split; [intros ? []|]. split; [simpl; lia|].
        eauto.
      - set (s1 := mkStore (recipes s) (tags s) (ingredients s) (S (next_id s))).
        exists (next_id s), (set_table k (table k s1 ++ [mkNamed (next_id s) n P]) s1),
          [mkNamed (next_id s) n P].
        rewrite recipes_set_table, table_other_set_table, table_set_table.
        unfold s1; rewrite !table_bump.
        do 4 (split; [reflexivity|]). split; [intros t [<-|[]]; auto|].
        split; [simpl; lia|].
        exists (mkNamed (next_id s) n P). rewrite lookup_name_app_none by exact Hl.
          simpl. unfold lookup_name; simpl. unfold owned_named; simpl.
          rewrite Nat.eqb_refl, String.eqb_refl. auto. }
    destruct Hstep as (i & s1 & new1 & Hg & Hr1 & Ho1 & Ht1 & Hnew1 & Hlen1 & (t1 & Hl1 & Hi1)).
    destruct (IH s1 Hok) as (ids & s' & Hres & Hr2 & Ho2 & (new2 & Ht2 & Hnd2 & Hnew2) & Hf2 & Hst2).
    exists (i :: ids), s'.
    change (resolve_all k P (n :: ns) s) with
      (bind (get_or_create k P n) (fun i => bind (resolve_all k P ns)
                                              (fun is => ret (i :: is))) s).
    unfold bind at 1; rewrite Hg; cbv beta iota; unfold bind; rewrite Hres.
    split; [reflexivity|]. split; [congruence|]. split; [congruence|].
    split; [|split].
    + exists (new1 ++ new2). rewrite Ht2, Ht1, app_assoc. split; [reflexivity|].
      split.
      * rewrite map_app. apply NoDup_app; [| exact Hnd2 |].
        -- destruct new1 as [|x [|y l]]; simpl in *; try lia; repeat constructor; auto.
        -- intros m Hm1 Hm2. apply in_map_iff in Hm1 as (x & <- & Hx).
           apply in_map_iff in Hm2 as (y & Hy & Hy2).
           destruct (Hnew1 x Hx) as (_ & Hxn & _).
           destruct (Hnew2 y Hy2) as (_ & _ & Hyl). rewrite Hy, Hxn, Hl1 in Hyl. discriminate.
      * intros t Ht. apply in_app_or in Ht as [Ht|Ht].
        -- destruct (Hnew1 t Ht) as (Hu & Hn & Hl). subst n. simpl; auto.
        -- destruct (Hnew2 t Ht) as (Hu & Hn & Hl). split; [exact Hu|]. split; [simpl; auto|].
           destruct (lookup_name P (n_name t) (table k s)) as [u|] eqn:Hu'; [|reflexivity].
           rewrite Ht1, (lookup_name_app _ _ _ _ _ Hu') in Hl. discriminate.
    + constructor; [|exact Hf2]. exists t1. split; [apply Hst2; exact Hl1 | exact Hi1].
    + intros m t Hm. apply Hst2. rewrite Ht1. apply lookup_name_app. exact Hm.
Qed.


Lemma reconcile_eq k P names s :
  reconcile k P names s =
  match resolve_all k P names s with
  | Ok (is, s') => Ok (nodup Nat.eq_dec is, s')
  | Err e => Err e
  end.
Proof. reflexivity. Qed.

(** Descriptors that all resolve in the current table change nothing. *)
Lemma resolve_all_found k P names ids s :
  forallb name_ok names = true ->
  Forall2 (fun n i => exists t, lookup_name P n (table k s) = Some t /\ n_id t = i)
    names ids ->
  resolve_all k P names s = Ok (ids, s).
Proof.
  intros Hok H. revert Hok.
  induction H as [|n i ns is (t & Hl & Hi) _ IH]; intros Hok; [reflexivity|].
  simpl in Hok. apply andb_true_iff in Hok as [Hn Hok].
  change (resolve_all k P (n :: ns) s) with
    (bind (get_or_create k P n) (fun i => bind (resolve_all k P ns)
                                            (fun is => ret (i :: is))) s).
  unfold bind at 1. rewrite get_or_create_eq, Hl by exact Hn. cbv beta iota.
  unfold bind. rewrite IH by exact Hok. subst. reflexivity.
Qed.

Lemma Forall2_in_l {A B} (R : A -> B -> Prop) l1 l2 x :
  Forall2 R l1 l2 -> In x l1 -> exists y, In y l2 /\ R x y.
Proof.
  induction 1 as [|a b l1 l2 Hab _ IH]; simpl; [tauto|].
  intros [<-|Hx]; [eauto|]. destruct (IH Hx) as (y & Hy & Hr). eauto.
Qed.

Lemma Forall2_in_r {A B} (R : A -> B -> Prop) l1 l2 y :
  Forall2 R l1 l2 -> In y l2 -> exists x, In x l1 /\ R x y.
Proof.
  induction 1 as [|a b l1 l2 Hab _ IH]; simpl; [tauto|].
  intros [<-|Hy]; [eauto|]. destruct (IH Hy) as (x & Hx & Hr). eauto.
Qed.

Lemma count_named_app P m l l' :
  count_named P m (l ++ l') = count_named P m l + count_named P m l'.
Proof. unfold count_named. rewrite filter_app, length_app. reflexivity. Qed.

Lemma count_named_zero P m l : count_named P m l = 0 <-> lookup_name P m l = None.
Proof.
  unfold count_named, lookup_name. induction l as [|a l IH]; simpl; [tauto|].
  destruct (owned_named P a && String.eqb (n_name a) m); simpl; [split; discriminate|].
  exact IH.
Qed.

(** New entities carry distinct names of the owner, so each name is counted
    at most once among them. *)
Lemma count_named_new P m new :
  NoDup (map n_name new) -> (forall t, In t new -> n_user t = P) ->
  count_named P m new = if in_dec string_dec m (map n_name new) then 1 else 0.
Proof.
  unfold count_named. induction new as [|a new IH]; intros Hnd Hu; [reflexivity|].
  inversion Hnd as [|? ? Hnin Hnd']; subst.
  assert (Ha : owned_named P a = true) by (apply Nat.eqb_eq; apply Hu; left; reflexivity).
  cbn [filter]. rewrite Ha. cbn [andb].
  destruct (String.eqb (n_name a) m) eqn:He; cbn [List.length];
    rewrite IH by (auto; intros t Ht; apply Hu; right; exact Ht);
    [apply String.eqb_eq in He | apply String.eqb_neq in He];
    destruct (in_dec string_dec m (map n_name new)) as [Hi|Hi];
    destruct (in_dec string_dec m (map n_name (a :: new))) as [Hi'|Hi'];
    subst; cbn [map In] in *; try reflexivity; exfalso; intuition.
Qed.

(** The owner's count of a name after resolution: a name of the list that
    was missing is now there once; every other count is unchanged. *)
Lemma resolve_all_count k P names s ids s' m :
  resolve_all k P names s = Ok (ids, s') ->
  count_named P m (table k s') =
  count_named P m (table k s) +
  (if in_dec string_dec m names then
     if Nat.eqb (count_named P m (table k s)) 0 then 1 else 0
   else 0).
Proof.
  intros H.
  destruct (resolve_all_spec k P names s (resolve_all_names_ok _ _ _ _ _ _ H))
    as (ids' & s'' & Hres & _ & _ & (new & Ht & Hnd & Hnew) & Hf & _).
  rewrite H in Hres. inversion Hres; subst ids' s''; clear Hres.
  rewrite Ht, count_named_app, (count_named_new P m new) by first [exact Hnd | intros t Hin; exact (proj1 (Hnew t Hin))].
  f_equal.
  destruct (in_dec string_dec m (map n_name new)) as [Hin|Hnin].
  - apply in_map_iff in Hin as (t & <- & Hin).
    destruct (Hnew t Hin) as (_ & Hn & Hl).
    destruct (in_dec string_dec (n_name t) names); [|contradiction].
    apply count_named_zero in Hl. rewrite Hl. reflexivity.
  - destruct (in_dec string_dec m names) as [Hm|]; [|reflexivity].
    destruct (Nat.eqb (count_named P m (table k s)) 0) eqn:Hz; [|reflexivity].
    exfalso. apply Nat.eqb_eq, count_named_zero in Hz.
    destruct (Forall2_in_l _ _ _ _ Hf Hm) as (i & _ & t & Hl & _).
    destruct (lookup_name_some _ _ _ _ Hl) as (Hin & Hu & Hn).
    rewrite Ht in Hin. apply in_app_or in Hin as [Hin|Hin].
    + assert (count_named P m (table k s) <> 0).
      { unfold count_named. intros Hc. apply length_zero_iff_nil in Hc.
        assert (In t (filter (fun t => owned_named P t && String.eqb (n_name t) m)
                        (table k s))) as Hf'.
        { apply filter_In. split; [exact Hin|]. apply andb_true_iff. split.
          - apply Nat.eqb_eq; exact Hu.
          - apply String.eqb_eq; exact Hn. }
        rewrite Hc in Hf'. exact Hf'. }
      apply H0. apply count_named_zero. exact Hz.
    + apply Hnin. rewrite <- Hn. apply in_map. exact Hin.
Qed.


(** ** Inversion of successful writes *)

Lemma write_assoc_eq k P v old s :
  write_assoc k P v old s =
  match v with Some names => reconcile k P names s | None => Ok (old, s) end.
Proof. destruct v; reflexivity. Qed.

(** Reconciliation of non-blank names never fails and touches neither the
    recipes nor the other table. *)
Lemma reconcile_ok k P names s :
  forallb name_ok names = true ->
  exists ids s', reconcile k P names s = Ok (ids, s') /\
    recipes s' = recipes s /\ table (other k) s' = table (other k) s.
Proof.
  intros Hok.
  destruct (resolve_all_spec k P names s Hok) as (ids & s' & H & Hr & Ho & _).
  exists (nodup Nat.eq_dec ids), s'. rewrite reconcile_eq, H. auto.
Qed.

Lemma reconcile_spec k P names s ids s' :
  reconcile k P names s = Ok (ids, s') ->
  exists ids0, ids = nodup Nat.eq_dec ids0 /\
    resolve_all k P names s = Ok (ids0, s').
Proof.
  rewrite reconcile_eq. destruct (resolve_all k P names s) as [[ids0 s0]|e]; [|discriminate].
  intros E; injection E as <- <-. eauto.
Qed.

Lemma write_assoc_frame k P v old s ids s' :
  write_assoc k P v old s = Ok (ids, s') ->
  recipes s' = recipes s /\ table (other k) s' = table (other k) s.
Proof.
  rewrite write_assoc_eq. destruct v as [names|].
  - intros E. destruct (reconcile_spec _ _ _ _ _ _ E) as (ids0 & _ & E0).
    destruct (reconcile_ok k P names s (resolve_all_names_ok _ _ _ _ _ _ E0))
      as (ids' & s'' & H & Hr & Ho).
    rewrite H in E. inversion E; subst; auto.
  - intros E; inversion E; subst; auto.
Qed.

Ltac invert_ok :=
  repeat match goal with
  | H : context [match ?x with Some _ => _ | None => _ end] |- _ =>
      let E := fresh "E" in destruct x eqn:E
  | H : context [match ?x with Ok _ => _ | Err _ => _ end] |- _ =>
      let E := fresh "E" in destruct x as [[? ?]|?] eqn:E
  | H : context [if ?b then _ else _] |- _ =>
      let E := fresh "E" in destruct b eqn:E
  | H : (_, _) = (_, _) |- _ => injection H as; subst
  | H : Ok _ = Ok _ |- _ => injection H as; subst
  | H : Err _ = Ok _ |- _ => discriminate H
  | H : (_, Err _) = (_, Ok _) |- _ => discriminate H
  end.

Lemma create_recipe_inv s P f s' e :
  create s P TRecipe f = (s', Ok e) ->
  exists t tm pr ts sA igs sB,
    p_title f = Some t /\ p_time_minutes f = Some tm /\ p_price f = Some pr /\
    (0 <= tm)%Z /\ (0 <= pr)%Z /\
    write_assoc NTags P (p_tags f) [] (bump s) = Ok (ts, sA) /\
    write_assoc NIngredients P (p_ingredients f) [] sA = Ok (igs, sB) /\
    let r := mkRecipe (next_id s) t tm pr (default EmptyString (p_description f))
               (default EmptyString (p_link f)) P ts igs in
    e = ERecipe r /\
    s' = mkStore (recipes sB ++ [r]) (tags sB) (ingredients sB) (next_id sB).
Proof.
  cbv [create transaction create_recipe bind require check_nonneg ret fail
       fresh_id modify].
  intros H. invert_ok.
  do 7 eexists. repeat split; eauto; apply Z.ltb_ge; assumption.
Qed.


Lemma update_recipe_inv s P id f mode s' e :
  update s P TRecipe id f mode = (s', Ok e) ->
  exists r t tm pr d l ts sA igs sB,
    find_recipe P id (recipes s) = Some r /\
    (forall z, p_time_minutes f = Some z -> (0 <= z)%Z) /\
    (forall z, p_price f = Some z -> (0 <= z)%Z) /\
    match mode with
    | Partial =>
        t = default (title r) (p_title f) /\
        tm = default (time_minutes r) (p_time_minutes f) /\
        pr = default (price r) (p_price f) /\
        d = default (description r) (p_description f) /\
        l = default (link r) (p_link f)
    | Full =>
        p_title f = Some t /\ p_time_minutes f = Some tm /\ p_price f = Some pr /\
        d = default EmptyString (p_description f) /\ l = default EmptyString (p_link f)
    end /\
    write_assoc NTags (r_user r) (p_tags f) (r_tags r) s = Ok (ts, sA) /\
    write_assoc NIngredients (r_user r) (p_ingredients f) (r_ingredients r) sA
      = Ok (igs, sB) /\
    let r' := mkRecipe (rec_id r) t tm pr d l (r_user r) ts igs in
    e = ERecipe r' /\
    s' = mkStore (replace_recipe r' (recipes sB)) (tags sB) (ingredients sB) (next_id sB).
Proof.
  cbv [update transaction update_recipe find_recipe_m get_store bind require
       check_nonneg ret fail modify].
  intros H. destruct mode; invert_ok;
  do 10 eexists; repeat split; eauto;
  intros ? Hz; inversion Hz; subst; apply Z.ltb_ge; assumption.
Qed.

Lemma update_named_inv s P T id f mode s' e :
  T <> TRecipe ->
  update s P T id f mode = (s', Ok e) ->
  exists t n,
    find_named P id (table (nested_of T) s) = Some t /\
    match mode with
    | Partial => n = default (n_name t) (p_name f)
    | Full => p_name f = Some n
    end /\
    let t' := mkNamed (n_id t) n (n_user t) in
    e = wrap_named T t' /\
    s' = set_table (nested_of T) (replace_named t' (table (nested_of T) s)) s.
Proof.
  intros HT. destruct T; [congruence| |];
  cbv [update transaction update_named find_named_m get_store bind require
       check_name ret fail modify];
  intros H; destruct mode; invert_ok; do 2 eexists; repeat split; eauto.
Qed.


(** ** Stability of reconciliation *)



(** Reconciling again against the table a reconciliation left changes
    nothing and gives the same association set. *)
Lemma write_assoc_stable k P v old s ids s1 s2 :
  write_assoc k P v old s = Ok (ids, s1) -> table k s2 = table k s1 ->
  write_assoc k P v old s2 = Ok (ids, s2).
Proof.
  rewrite !write_assoc_eq. destruct v as [names|].
  - intros H Ht. apply reconcile_spec in H as (ids0 & -> & H).
    pose proof (resolve_all_names_ok _ _ _ _ _ _ H) as Hok.
    destruct (resolve_all_spec k P names s Hok) as (ids' & s' & H' & _ & _ & _ & Hf & _).
    rewrite H in H'. injection H' as <- <-.
    rewrite reconcile_eq, (resolve_all_found k P names ids0 s2 Hok); [reflexivity|].
    rewrite Ht. exact Hf.
  - intros E _. injection E as <- <-. reflexivity.
Qed.

Lemma write_assoc_nodup k P v s ids s1 :
  write_assoc k P v [] s = Ok (ids, s1) -> NoDup ids.
Proof.
  rewrite write_assoc_eq. destruct v as [names|].
  - intros H. apply reconcile_spec in H as (ids0 & -> & _). apply NoDup_nodup.
  - intros E; injection E as <- <-. constructor.
Qed.

Lemma write_assoc_count k P names old s ids s1 m :
  write_assoc k P (Some names) old s = Ok (ids, s1) -> In m names ->
  count_named P m (table k s1) = Nat.max 1 (count_named P m (table k s)).
Proof.
  rewrite write_assoc_eq. intros H Hm. apply reconcile_spec in H as (ids0 & _ & H).
  rewrite (resolve_all_count _ _ _ _ _ _ m H).
  destruct (in_dec string_dec m names); [|contradiction].
  destruct (count_named P m (table k s)) as [|c]; simpl; lia.
Qed.

Lemma table_other_ingredients s : table (other NIngredients) s = tags s.
Proof. reflexivity. Qed.

Lemma table_other_tags s : table (other NTags) s = ingredients s.
Proof. reflexivity. Qed.

Lemma find_recipe_replace P r' l :
  r_user r' = P -> In (rec_id r') (map rec_id l) ->
  find_recipe P (rec_id r') (replace_recipe r' l) = Some r'.
Proof.
  intros Hu. unfold find_recipe, replace_recipe, owned_recipe.
  induction l as [|x l IH]; simpl; [tauto|]. intros Hin.
  destruct (Nat.eqb (rec_id x) (rec_id r')) eqn:Hx; simpl.
  - rewrite Nat.eqb_refl, Hu, Nat.eqb_refl. reflexivity.
  - rewrite Hx. simpl. apply IH. destruct Hin as [E|]; [|assumption].
    apply Nat.eqb_neq in Hx. congruence.
Qed.

Lemma find_named_replace P t' l :
  n_user t' = P -> In (n_id t') (map n_id l) ->
  find_named P (n_id t') (replace_named t' l) = Some t'.
Proof.
  intros Hu. unfold find_named, replace_named, owned_named.
  induction l as [|x l IH]; simpl; [tauto|]. intros Hin.
  destruct (Nat.eqb (n_id x) (n_id t')) eqn:Hx; simpl.
  - rewrite Nat.eqb_refl, Hu, Nat.eqb_refl. reflexivity.
  - rewrite Hx. simpl. apply IH. destruct Hin as [E|]; [|assumption].
    apply Nat.eqb_neq in Hx. congruence.
Qed.


(** ** Lemmas on updates *)

Lemma get_recipe_find P id s r :
  get_object P TRecipe id s = Ok (ERecipe r) -> find_recipe P id (recipes s) = Some r.
Proof.
  simpl. destruct (find_recipe P id (recipes s)); [|discriminate].
  intros E; injection E as ->. reflexivity.
Qed.

Lemma write_assoc_ok k P v old s :
  forallb name_ok (default [] v) = true ->
  exists ids s', write_assoc k P v old s = Ok (ids, s').
Proof.
  rewrite write_assoc_eq. destruct v as [names|]; [|eauto]. intros Hok.
  destruct (reconcile_ok k P names s Hok) as (ids & s' & H & _). eauto.
Qed.

(** The association set written for a present key: no duplicates, and
    exactly the owner's entities named in the list. *)
Lemma write_assoc_members k P names old s ids s1 :
  write_assoc k P (Some names) old s = Ok (ids, s1) ->
  NoDup ids /\
  forall i, In i ids <->
    exists n t, In n names /\ lookup_name P n (table k s1) = Some t /\ n_id t = i.
Proof.
  rewrite write_assoc_eq. intros H. apply reconcile_spec in H as (ids0 & -> & H).
  destruct (resolve_all_spec k P names s (resolve_all_names_ok _ _ _ _ _ _ H))
    as (ids' & s' & H' & _ & _ & _ & Hf & _).
  rewrite H in H'. injection H' as <- <-.
  split; [apply NoDup_nodup|]. intros i. rewrite nodup_In. split.
  - intros Hi. destruct (Forall2_in_r _ _ _ _ Hf Hi) as (n & Hn & t & Hl & Ht). eauto.
  - intros (n & t & Hn & Hl & <-).
    destruct (Forall2_in_l _ _ _ _ Hf Hn) as (i & Hi & t' & Hl' & <-).
    congruence.
Qed.

Lemma write_assoc_nil k P old s ids s1 :
  write_assoc k P (Some []) old s = Ok (ids, s1) -> ids = [].
Proof.
  rewrite write_assoc_eq, reconcile_eq. simpl. intros E. injection E as <- _.
  reflexivity.
Qed.

Lemma write_assoc_none k P old s ids s1 :
  write_assoc k P None old s = Ok (ids, s1) -> ids = old.
Proof. rewrite write_assoc_eq. intros E. injection E as <- _. reflexivity. Qed.

(** The owner field of a payload is never read by an update. *)
Lemma update_with_user s P T id f mode u :
  update s P T id (with_user f u) mode = update s P T id f mode.
Proof. destruct f, T; reflexivity. Qed.


(** A successful update keeps the owner, and the stored entity is the
    returned one. *)
Lemma update_keeps_owner s P T id f mode s' e :
  update s P T id f mode = (s', Ok e) ->
  exists e0, get_object P T id s = Ok e0 /\ entity_user e = entity_user e0 /\
    entity_user e = P /\ get_object P T id s' = Ok e.
Proof.
  intros H. destruct (T) eqn:HT.
  - apply update_recipe_inv in H
      as (r & t & tm & pr & d & l & ts & sA & igs & sB & Hf & _ & _ & _ & Ht & Hi & -> & ->).
    exists (ERecipe r). simpl. rewrite Hf.
    pose proof Hf as Hf'. rewrite find_recipe_scoped in Hf'.
    apply scoped_find_some in Hf' as (Hin & Hid & Hu).
    split; [reflexivity|]. split; [reflexivity|]. split; [exact Hu|].
    destruct (write_assoc_frame _ _ _ _ _ _ _ Ht) as (HrA & _).
    destruct (write_assoc_frame _ _ _ _ _ _ _ Hi) as (HrB & _).
    simpl. rewrite HrB, HrA. rewrite <- Hid at 1.
    pose proof (find_recipe_replace P (mkRecipe (rec_id r) t tm pr d l (r_user r) ts igs)
                  (recipes s) Hu (in_map rec_id _ _ Hin)) as E.
    simpl in E. rewrite E. reflexivity.
  - apply update_named_inv in H as (t & n & Hf & _ & -> & ->); [|discriminate].
    exists (ETag t). simpl in *. rewrite Hf.
    pose proof Hf as Hf'. rewrite find_named_scoped in Hf'.
    apply scoped_find_some in Hf' as (Hin & Hid & Hu).
    split; [reflexivity|]. split; [reflexivity|]. split; [exact Hu|].
    rewrite <- Hid at 1.
    pose proof (find_named_replace P (mkNamed (n_id t) n (n_user t)) _ Hu
                  (in_map n_id _ _ Hin)) as E.
    simpl in E. rewrite E. reflexivity.
  - apply update_named_inv in H as (t & n & Hf & _ & -> & ->); [|discriminate].
    exists (EIngredient t). simpl in *. rewrite Hf.
    pose proof Hf as Hf'. rewrite find_named_scoped in Hf'.
    apply scoped_find_some in Hf' as (Hin & Hid & Hu).
    split; [reflexivity|]. split; [reflexivity|]. split; [exact Hu|].
    rewrite <- Hid at 1.
    pose proof (find_named_replace P (mkNamed (n_id t) n (n_user t)) _ Hu
                  (in_map n_id _ _ Hin)) as E.
    simpl in E. rewrite E. reflexivity.
Qed.

(** * Properties of the repository *)

(** C1: for every principal [P] and every stored entity [e] whose owner is
    not [P], get, update and delete of [e]'s type and id all fail with
    [NotFound], the same answer as for an id that does not exist at all. *)
Theorem foreign_access_not_found (s : Store) (P : UserId) (e : Entity)
    (Hwf : wf s) (Hin : In e (entities s (entity_type e)))
    (Hown : entity_user e <> P) :
  forall f mode,
  get_object P (entity_type e) (entity_id e) s = Err NotFound /\
  snd (update s P (entity_type e) (entity_id e) f mode) = Err NotFound /\
  snd (delete s P (entity_type e) (entity_id e)) = Err NotFound /\
  (forall id, ~ In id (map entity_id (entities s (entity_type e))) ->
     get_object P (entity_type e) id s = Err NotFound /\
     snd (update s P (entity_type e) id f mode) = Err NotFound /\
     snd (delete s P (entity_type e) id) = Err NotFound).
Proof.
  intros f mode.
  destruct (ops_missing s P (entity_type e) (entity_id e) f mode
              (lookup_foreign_none s P e Hwf Hin Hown)) as (H1 & H2 & H3).
  rewrite H2, H3. split; [exact H1|]. split; [reflexivity|]. split; [reflexivity|].
  intros id Hid.
  destruct (ops_missing s P (entity_type e) id f mode
              (lookup_absent_none s P (entity_type e) id Hid)) as (G1 & G2 & G3).
  rewrite G2, G3. split; [exact G1|]. split; reflexivity.
Qed.

(** C2: the listing of type [T] for [P] holds every entity of type [T]
    owned by [P] and no entity owned by anyone else. *)
Theorem list_scoped_to_owner (s : Store) (P : UserId) (T : EntityType) :
  (forall e, In e (entities s T) -> entity_user e = P -> In e (list_entities s P T)) /\
  (forall e, In e (list_entities s P T) -> entity_user e = P).
Proof.
  split.
  - intros e He Ho. apply In_list_entities. auto.
  - intros e He. apply In_list_entities in He. tauto.
Qed.

(** C9: [list(P, T)] is the principal's entities ordered by id descending
    for recipes and by name descending for tags and ingredients. *)
Theorem list_order (s : Store) (P : UserId) :
  Permutation (list_entities s P TRecipe)
    (map ERecipe (filter (owned_recipe P) (recipes s))) /\
  Sorted (fun a b => entity_id b <= entity_id a) (list_entities s P TRecipe) /\
  Permutation (list_entities s P TTag) (map ETag (filter (owned_named P) (tags s))) /\
  Sorted (fun a b => String.leb (entity_name b) (entity_name a) = true)
    (list_entities s P TTag) /\
  Permutation (list_entities s P TIngredient)
    (map EIngredient (filter (owned_named P) (ingredients s))) /\
  Sorted (fun a b => String.leb (entity_name b) (entity_name a) = true)
    (list_entities s P TIngredient).
Proof.
  simpl. repeat split.
  - apply Permutation_map, sort_by_perm.
  - apply Sorted_map. eapply Sorted_weaken; [|apply (sort_by_sorted _ id_desc id_desc_total)].
    intros a b H. unfold id_desc in H. apply Nat.leb_le. exact H.
  - apply Permutation_map, sort_by_perm.
  - apply Sorted_map. apply (sort_by_sorted _ name_desc name_desc_total).
  - apply Permutation_map, sort_by_perm.
  - apply Sorted_map. apply (sort_by_sorted _ name_desc name_desc_total).
Qed.

(** C10: a delete or update of another principal's entity fails with
    [NotFound] and leaves the store exactly as it was, [e] included. *)
Theorem foreign_mutation_atomic (s : Store) (P : UserId) (e : Entity)
    (Hwf : wf s) (Hin : In e (entities s (entity_type e)))
    (Hown : entity_user e <> P) :
  forall f mode,
  update s P (entity_type e) (entity_id e) f mode = (s, Err NotFound) /\
  delete s P (entity_type e) (entity_id e) = (s, Err NotFound) /\
  In e (entities (fst (update s P (entity_type e) (entity_id e) f mode)) (entity_type e)) /\
  In e (entities (fst (delete s P (entity_type e) (entity_id e))) (entity_type e)).
Proof.
  intros f mode.
  destruct (ops_missing s P (entity_type e) (entity_id e) f mode
              (lookup_foreign_none s P e Hwf Hin Hown)) as (_ & H2 & H3).
  rewrite H2, H3. split; [reflexivity|]. split; [reflexivity|]. split; exact Hin.
Qed.

(** C3: reconciling a descriptor list under owner [P] (as create and update
    of a recipe do for its tags and ingredients) resolves each name to the
    owner's entity with that (owner, name), reusing the one that existed and
    creating one only when none did; the association set is made of those
    entities.  In the scenario of [test_create_recipe_with_existing_tags],
    creating a recipe with tags "Chinese" and "Japanese" when the owner
    already has "Chinese" creates exactly one tag, "Japanese", and the recipe
    holds both. *)
Theorem reconcile_reuses_or_creates (k : Nested) (P : UserId) (names : list string)
    (s s' : Store) (ids : list nat)
    (H : reconcile k P names s = Ok (ids, s')) :
  (forall n, In n names ->
     exists t, lookup_name P n (table k s') = Some t /\ In (n_id t) ids /\
       n_user t = P /\ n_name t = n /\
       (forall t0, lookup_name P n (table k s) = Some t0 -> t = t0)) /\
  (forall i, In i ids ->
     exists n t, In n names /\ lookup_name P n (table k s') = Some t /\ n_id t = i) /\
  (exists new, table k s' = table k s ++ new /\ NoDup (map n_name new) /\
     forall t, In t new ->
       n_user t = P /\ In (n_name t) names /\ lookup_name P (n_name t) (table k s) = None) /\
  match create chinese_store 1 TRecipe
          (test_payload (Some ["Chinese"; "Japanese"]%string)) with
  | (s1, Ok (ERecipe r)) =>
      tags s1 = tags chinese_store ++ [mkNamed 3 "Japanese" 1] /\
      List.length (r_tags r) = 2 /\ In 0 (r_tags r) /\ In 3 (r_tags r)
  | _ => False
  end.
Proof.
  apply reconcile_spec in H as (ids0 & -> & Hres).
  destruct (resolve_all_spec k P names s (resolve_all_names_ok _ _ _ _ _ _ Hres))
    as (ids' & s'' & Hres' & _ & _ & Hnew & Hf & Hst).
  rewrite Hres in Hres'. injection Hres' as <- <-.
  split; [|split; [|split]].
  - intros n Hn. destruct (Forall2_in_l _ _ _ _ Hf Hn) as (i & Hi & t & Hl & <-).
    destruct (lookup_name_some _ _ _ _ Hl) as (_ & Hu & Hnm).
    exists t. split; [exact Hl|]. split; [apply nodup_In; exact Hi|].
    split; [exact Hu|]. split; [exact Hnm|].
    intros t0 Ht0. apply Hst in Ht0. congruence.
  - intros i Hi. apply nodup_In in Hi.
    destruct (Forall2_in_r _ _ _ _ Hf Hi) as (n & Hn & t & Hl & Ht). eauto.
  - exact Hnew.
  - vm_compute. split; [reflexivity|]. split; [reflexivity|]. tauto.
Qed.

(** C4: creating two recipes with the same descriptor lists under the same
    owner creates no entity the second time and gives the second recipe the
    same association sets, which hold no duplicates; every name of the
    lists is then held by exactly one entity of the owner when it was held
    by at most one before. *)
Theorem create_twice_idempotent (s s1 s2 : Store) (P : UserId) (f : Payload)
    (r1 r2 : Recipe)
    (H1 : create s P TRecipe f = (s1, Ok (ERecipe r1)))
    (H2 : create s1 P TRecipe f = (s2, Ok (ERecipe r2))) :
  tags s2 = tags s1 /\ ingredients s2 = ingredients s1 /\
  r_tags r2 = r_tags r1 /\ r_ingredients r2 = r_ingredients r1 /\
  NoDup (r_tags r1) /\ NoDup (r_ingredients r1) /\
  (forall names m, p_tags f = Some names -> In m names ->
     count_named P m (tags s2) = Nat.max 1 (count_named P m (tags s))) /\
  (forall names m, p_ingredients f = Some names -> In m names ->
     count_named P m (ingredients s2) = Nat.max 1 (count_named P m (ingredients s))).
Proof.
  apply create_recipe_inv in H1
    as (t & tm & pr & ts & sA & igs & sB & _ & _ & _ & _ & _ & Ht1 & Hi1 & He1 & ->).
  apply create_recipe_inv in H2
    as (t' & tm' & pr' & ts' & sA' & igs' & sB' & _ & _ & _ & _ & _ & Ht2 & Hi2 & He2 & ->).
  injection He1 as ->. injection He2 as ->.
  destruct (write_assoc_frame _ _ _ _ _ _ _ Hi1) as (_ & HoA).
  rewrite !table_other_ingredients in HoA.
  (* the second tag reconciliation runs against the table the first left *)
  assert (Ht2' := write_assoc_stable NTags P (p_tags f) [] _ _ _
                   (bump (mkStore (recipes sB ++ [mkRecipe (next_id s) t tm pr
                      (default EmptyString (p_description f)) (default EmptyString (p_link f))
                      P ts igs]) (tags sB) (ingredients sB) (next_id sB)))
                   Ht1 HoA).
  rewrite Ht2 in Ht2'. injection Ht2' as -> ->.
  assert (Hi2' := write_assoc_stable NIngredients P (p_ingredients f) [] _ _ _
                   (bump (mkStore (recipes sB ++ [mkRecipe (next_id s) t tm pr
                      (default EmptyString (p_description f)) (default EmptyString (p_link f))
                      P ts igs]) (tags sB) (ingredients sB) (next_id sB)))
                   Hi1 eq_refl).
  rewrite Hi2 in Hi2'. injection Hi2' as -> ->. simpl.
  split; [reflexivity|]. split; [reflexivity|]. split; [reflexivity|].
  split; [reflexivity|].
  split; [eapply write_assoc_nodup; exact Ht1|].
  split; [eapply write_assoc_nodup; exact Hi1|].
  split.
  - intros names m Hn Hm. rewrite HoA.
    rewrite Hn in Ht1. exact (write_assoc_count NTags P names [] (bump s) ts sA m Ht1 Hm).
  - intros names m Hn Hm. rewrite Hn in Hi1.
    destruct (write_assoc_frame _ _ _ _ _ _ _ Ht1) as (_ & HoT).
    rewrite !table_other_tags in HoT.
    pose proof (write_assoc_count NIngredients P names [] sA igs sB m Hi1 Hm) as Hc.
    simpl in Hc, HoT |- *. rewrite Hc, HoT. reflexivity.
Qed.

(** C5: an update of a recipe (partial or full) whose payload has a
    [tags] (or [ingredients]) key replaces the association set by the
    reconciled set: it holds exactly the owner's entities named in the list,
    so an entity associated before and not named is dropped, and an empty
    list leaves no association; without the key the set is untouched. *)
Theorem update_replaces_associations (s s' : Store) (P : UserId) (id : nat)
    (f : Payload) (mode : Mode) (r r' : Recipe)
    (Hr : get_object P TRecipe id s = Ok (ERecipe r))
    (H : update s P TRecipe id f mode = (s', Ok (ERecipe r'))) :
  (forall names, p_tags f = Some names ->
     NoDup (r_tags r') /\
     forall i, In i (r_tags r') <->
       exists n t, In n names /\ lookup_name P n (tags s') = Some t /\ n_id t = i) /\
  (p_tags f = Some [] -> r_tags r' = []) /\
  (p_tags f = None -> r_tags r' = r_tags r) /\
  (forall names, p_ingredients f = Some names ->
     NoDup (r_ingredients r') /\
     forall i, In i (r_ingredients r') <->
       exists n t, In n names /\ lookup_name P n (ingredients s') = Some t /\ n_id t = i) /\
  (p_ingredients f = Some [] -> r_ingredients r' = []) /\
  (p_ingredients f = None -> r_ingredients r' = r_ingredients r).
Proof.
  apply get_recipe_find in Hr.
  apply update_recipe_inv in H
    as (r0 & t & tm & pr & d & l & ts & sA & igs & sB & Hf & _ & _ & _ & Ht & Hi & He & ->).
  rewrite Hr in Hf. injection Hf as <-. injection He as ->.
  rewrite find_recipe_scoped in Hr. apply scoped_find_some in Hr as (_ & _ & Hu).
  rewrite Hu in Ht, Hi.
  destruct (write_assoc_frame _ _ _ _ _ _ _ Hi) as (_ & HoT).
  rewrite !table_other_ingredients in HoT. simpl.
  split; [|split; [|split; [|split; [|split]]]].
  - intros names Hn. rewrite Hn in Ht. rewrite HoT. exact (write_assoc_members _ _ _ _ _ _ _ Ht).
  - intros Hn. rewrite Hn in Ht. exact (write_assoc_nil _ _ _ _ _ _ Ht).
  - intros Hn. rewrite Hn in Ht. exact (write_assoc_none _ _ _ _ _ _ Ht).
  - intros names Hn. rewrite Hn in Hi. exact (write_assoc_members _ _ _ _ _ _ _ Hi).
  - intros Hn. rewrite Hn in Hi. exact (write_assoc_nil _ _ _ _ _ _ Hi).
  - intros Hn. rewrite Hn in Hi. exact (write_assoc_none _ _ _ _ _ _ Hi).
Qed.

(** C6: the owner field of an update payload is ignored: an update that
    succeeds succeeds the same way whatever owner the payload names (or
    none), and the entity keeps the owner it had, which is the principal. *)
Theorem update_ignores_owner (s s' : Store) (P : UserId) (T : EntityType) (id : nat)
    (f : Payload) (mode : Mode) (e : Entity)
    (H : update s P T id f mode = (s', Ok e)) :
  (forall u, update s P T id (with_user f u) mode = (s', Ok e)) /\
  exists e0, get_object P T id s = Ok e0 /\ entity_user e = entity_user e0 /\
    entity_user e = P /\ get_object P T id s' = Ok e.
Proof.
  split.
  - intros u. rewrite update_with_user. exact H.
  - exact (update_keeps_owner _ _ _ _ _ _ _ _ H).
Qed.

(** C7: a partial update of a recipe takes the supplied fields and keeps
    every other one: each field is the payload's value when given and the
    old value otherwise; id, owner and (without their keys) associations
    are unchanged. *)
Theorem partial_update_merges (s s' : Store) (P : UserId) (id : nat) (f : Payload)
    (r r' : Recipe)
    (Hr : get_object P TRecipe id s = Ok (ERecipe r))
    (H : update s P TRecipe id f Partial = (s', Ok (ERecipe r'))) :
  title r' = default (title r) (p_title f) /\
  time_minutes r' = default (time_minutes r) (p_time_minutes f) /\
  price r' = default (price r) (p_price f) /\
  description r' = default (description r) (p_description f) /\
  link r' = default (link r) (p_link f) /\
  rec_id r' = rec_id r /\ r_user r' = r_user r /\
  (p_tags f = None -> r_tags r' = r_tags r) /\
  (p_ingredients f = None -> r_ingredients r' = r_ingredients r) /\
  get_object P TRecipe id s' = Ok (ERecipe r').
Proof.
  pose proof (update_keeps_owner _ _ _ _ _ _ _ _ H) as (_ & _ & _ & _ & Hget).
  apply get_recipe_find in Hr.
  apply update_recipe_inv in H
    as (r0 & t & tm & pr & d & l & ts & sA & igs & sB & Hf & _ & _ & Hm & Ht & Hi & He & _).
  rewrite Hr in Hf. injection Hf as <-. injection He as ->.
  destruct Hm as (-> & -> & -> & -> & ->). simpl.
  do 7 (split; [reflexivity|]).
  split; [intros Hn; rewrite Hn in Ht; exact (write_assoc_none _ _ _ _ _ _ Ht)|].
  split; [intros Hn; rewrite Hn in Hi; exact (write_assoc_none _ _ _ _ _ _ Hi)|].
  exact Hget.
Qed.

(** C8: a full update requires every required field and replaces every
    field.  On the principal's own recipe, a full update missing [title],
    [time_minutes] or [price] fails with a [ValidationError]; one that
    succeeds with every field supplied holds exactly the supplied values
    (the association sets exactly the owner's entities named in the
    supplied lists), id and owner kept, and is what a later get returns;
    with every field supplied and valid (non-negative numbers, non-blank
    tag and ingredient names) it does succeed.  On the principal's own tag
    or ingredient, a full update without [name] fails with a
    [ValidationError] on [name]; one that succeeds sets exactly the supplied
    name, id and owner kept; with a non-blank name it does succeed. *)
Theorem full_update_requires_and_replaces (s : Store) (P : UserId) :
  (forall id r f, get_object P TRecipe id s = Ok (ERecipe r) ->
     p_title f = None \/ p_time_minutes f = None \/ p_price f = None ->
     exists fld, update s P TRecipe id f Full = (s, Err (ValidationError fld))) /\
  (forall id r f t tm pr d l s' e,
     get_object P TRecipe id s = Ok (ERecipe r) ->
     p_title f = Some t -> p_time_minutes f = Some tm -> p_price f = Some pr ->
     p_description f = Some d -> p_link f = Some l ->
     update s P TRecipe id f Full = (s', Ok e) ->
     exists r', e = ERecipe r' /\ title r' = t /\ time_minutes r' = tm /\ price r' = pr /\
       description r' = d /\ link r' = l /\ rec_id r' = rec_id r /\ r_user r' = r_user r /\
       (forall names, p_tags f = Some names -> forall i, In i (r_tags r') <->
          exists n t0, In n names /\ lookup_name P n (tags s') = Some t0 /\ n_id t0 = i) /\
       (forall names, p_ingredients f = Some names -> forall i, In i (r_ingredients r') <->
          exists n t0, In n names /\ lookup_name P n (ingredients s') = Some t0 /\ n_id t0 = i) /\
       get_object P TRecipe id s' = Ok e) /\
  (forall id r f t tm pr d l,
     get_object P TRecipe id s = Ok (ERecipe r) ->
     p_title f = Some t -> p_time_minutes f = Some tm -> p_price f = Some pr ->
     p_description f = Some d -> p_link f = Some l -> (0 <= tm)%Z -> (0 <= pr)%Z ->
     forallb name_ok (default [] (p_tags f)) = true ->
     forallb name_ok (default [] (p_ingredients f)) = true ->
     exists s' e, update s P TRecipe id f Full = (s', Ok e)) /\
  (forall T id t f, T <> TRecipe -> get_object P T id s = Ok (wrap_named T t) ->
     p_name f = None ->
     update s P T id f Full = (s, Err (ValidationError "name"))) /\
  (forall T id t f n s' e, T <> TRecipe -> get_object P T id s = Ok (wrap_named T t) ->
     p_name f = Some n ->
     update s P T id f Full = (s', Ok e) ->
     e = wrap_named T (mkNamed id n P) /\ get_object P T id s' = Ok e) /\
  (forall T id t f n, T <> TRecipe -> get_object P T id s = Ok (wrap_named T t) ->
     p_name f = Some n -> name_ok n = true ->
     exists s' e, update s P T id f Full = (s', Ok e)).
Proof.
  split; [|split; [|split; [|split; [|split]]]].
  - intros id r f Hr Hmiss. apply get_recipe_find in Hr.
    cbv [update transaction update_recipe find_recipe_m get_store bind require
         check_nonneg ret fail modify].
    rewrite Hr.
    destruct (p_title f), (p_time_minutes f) as [z1|], (p_price f) as [z2|];
      try (destruct Hmiss as [E|[E|E]]; discriminate E);
      repeat match goal with |- context [if ?b then _ else _] => destruct b end;
      eexists; reflexivity.
  - intros id r f t tm pr d l s' e Hr Ht Htm Hpr Hd Hl H.
    pose proof (update_keeps_owner _ _ _ _ _ _ _ _ H) as (_ & _ & _ & _ & Hget).
    apply get_recipe_find in Hr.
    apply update_recipe_inv in H
      as (r0 & t' & tm' & pr' & d' & l' & ts & sA & igs & sB & Hf & _ & _ & Hm & Hts & His
          & He & ->).
    rewrite Hr in Hf. injection Hf as <-.
    rewrite find_recipe_scoped in Hr. apply scoped_find_some in Hr as (_ & _ & Hu).
    rewrite Hu in Hts, His.
    destruct (write_assoc_frame _ _ _ _ _ _ _ His) as (_ & HoT).
    rewrite !table_other_ingredients in HoT.
    destruct Hm as (Ht' & Htm' & Hpr' & -> & ->).
    rewrite Ht in Ht'. rewrite Htm in Htm'. rewrite Hpr in Hpr'.
    injection Ht' as <-. injection Htm' as <-. injection Hpr' as <-.
    assert (HT : forall names, p_tags f = Some names -> forall i, In i ts <->
              exists n t0, In n names /\ lookup_name P n (tags sB) = Some t0 /\ n_id t0 = i).
    { intros names Hn i. rewrite Hn in Hts. rewrite HoT.
      exact (proj2 (write_assoc_members _ _ _ _ _ _ _ Hts) i). }
    assert (HI : forall names, p_ingredients f = Some names -> forall i, In i igs <->
              exists n t0, In n names /\ lookup_name P n (ingredients sB) = Some t0 /\
                           n_id t0 = i).
    { intros names Hn i. rewrite Hn in His.
      exact (proj2 (write_assoc_members _ _ _ _ _ _ _ His) i). }
    subst e. rewrite Hd, Hl in Hget |- *. cbn [default] in Hget |- *.
    eexists. split; [reflexivity|]. cbn [title time_minutes price description link rec_id
                                         r_user r_tags r_ingredients tags ingredients].
    do 7 (split; [reflexivity|]).
    split; [exact HT|]. split; [exact HI|]. exact Hget.
  - intros id r f t tm pr d l Hr Ht Htm Hpr Hd Hl Hz1 Hz2 Hok1 Hok2.
    apply get_recipe_find in Hr.
    destruct (write_assoc_ok NTags (r_user r) (p_tags f) (r_tags r) s Hok1)
      as (ts & sA & Hts).
    destruct (write_assoc_ok NIngredients (r_user r) (p_ingredients f) (r_ingredients r) sA
                Hok2) as (igs & sB & His).
    cbv [update transaction update_recipe find_recipe_m get_store bind require
         check_nonneg ret fail modify].
    rewrite Hr, Ht, Htm, Hpr.
    apply Z.ltb_ge in Hz1. apply Z.ltb_ge in Hz2. rewrite Hz1, Hz2.
    rewrite Hts, His. eexists. eexists. reflexivity.
  - intros T id t f HT Hg Hn.
    destruct T; [congruence| |]; simpl in Hg;
      destruct (find_named P id _) as [t0|] eqn:Hf; try discriminate;
      cbv [update transaction update_named find_named_m get_store bind require ret fail
           modify];
      simpl; rewrite Hf, Hn; reflexivity.
  - intros T id t f n s' e HT Hg Hn H.
    pose proof (update_keeps_owner _ _ _ _ _ _ _ _ H) as (_ & _ & _ & _ & Hget).
    apply (update_named_inv s P T id f Full s' e HT) in H as (t0 & n0 & Hf & Hm & He & _).
    rewrite Hn in Hm. injection Hm as <-.
    assert (Ht0 : find_named P id (table (nested_of T) s) = Some t).
    { destruct T; [congruence| |]; simpl in Hg |- *;
        destruct (find_named P id _); try discriminate; injection Hg as ->; reflexivity. }
    rewrite Ht0 in Hf. injection Hf as <-.
    rewrite find_named_scoped in Ht0. apply scoped_find_some in Ht0 as (_ & Hid & Hu).
    rewrite Hid, Hu in He. split; [exact He|]. exact Hget.
  - intros T id t f n HT Hg Hn Hok.
    destruct T; [congruence| |]; simpl in Hg;
      destruct (find_named P id _) as [t0|] eqn:Hf; try discriminate;
      cbv [update transaction update_named find_named_m get_store bind require check_name
           ret fail modify];
      simpl; rewrite Hf, Hn, Hok; eexists; eexists; reflexivity.
Qed.

(** * Witnesses: each hypothesis holds at a concrete input *)

(** User 1 reaches for the tag "Chinese" of user 2 (id 1). *)
Lemma foreign_access_not_found_witness :
  wf chinese_store /\ In (ETag (mkNamed 1 "Chinese" 2)) (entities chinese_store TTag) /\
  get_object 1 TTag 1 chinese_store = Err NotFound /\
  snd (delete chinese_store 1 TTag 1) = Err NotFound.
Proof.
  assert (Hwf : wf chinese_store)
    by (split; [constructor | split; [repeat constructor; simpl; lia | constructor]]).
  assert (Hin : In (ETag (mkNamed 1 "Chinese" 2)) (entities chinese_store TTag))
    by (simpl; tauto).
  destruct (foreign_access_not_found chinese_store 1 (ETag (mkNamed 1 "Chinese" 2))
              Hwf Hin ltac:(simpl; lia) empty_payload Partial) as (H1 & _ & H3 & _).
  split; [exact Hwf|]. split; [exact Hin|]. split; [exact H1 | exact H3].
Defined.

Lemma reconcile_reuses_or_creates_witness :
  reconcile NTags 1 ["Chinese"; "Japanese"]%string chinese_store = Ok ([0; 2], chinese_reconciled) /\
  tags chinese_reconciled = tags chinese_store ++ [mkNamed 2 "Japanese" 1].
Proof.
  assert (H : reconcile NTags 1 ["Chinese"; "Japanese"]%string chinese_store
              = Ok ([0; 2], chinese_reconciled)) by (vm_compute; reflexivity).
  destruct (reconcile_reuses_or_creates NTags 1 _ _ _ _ H) as (_ & _ & _ & _).
  split; [exact H|]. vm_compute. reflexivity.
Defined.

Lemma create_twice_idempotent_witness :
  create empty_store 1 TRecipe thai_payload = (thai_store1, Ok (ERecipe thai_recipe1)) /\
  create thai_store1 1 TRecipe thai_payload = (thai_store2, Ok (ERecipe thai_recipe2)) /\
  tags thai_store2 = tags thai_store1 /\ r_tags thai_recipe2 = r_tags thai_recipe1 /\
  count_named 1 "Thai" (tags thai_store2) = 1.
Proof.
  assert (H1 : create empty_store 1 TRecipe thai_payload
               = (thai_store1, Ok (ERecipe thai_recipe1))) by (vm_compute; reflexivity).
  assert (H2 : create thai_store1 1 TRecipe thai_payload
               = (thai_store2, Ok (ERecipe thai_recipe2))) by (vm_compute; reflexivity).
  destruct (create_twice_idempotent _ _ _ _ _ _ _ H1 H2)
    as (Ht & _ & Hr & _ & _ & _ & Hc & _).
  split; [exact H1|]. split; [exact H2|]. split; [exact Ht|]. split; [exact Hr|].
  rewrite (Hc ["Thai"; "Dinner"]%string "Thai"%string); [reflexivity | reflexivity | simpl; tauto].
Defined.

Lemma update_replaces_associations_witness :
  get_object 1 TRecipe 0 thai_store1 = Ok (ERecipe thai_recipe1) /\
  update thai_store1 1 TRecipe 0 lunch_payload Partial = (lunch_store, Ok (ERecipe lunch_recipe)) /\
  ~ In 1 (r_tags lunch_recipe).
Proof.
  assert (Hr : get_object 1 TRecipe 0 thai_store1 = Ok (ERecipe thai_recipe1))
    by (vm_compute; reflexivity).
  assert (H : update thai_store1 1 TRecipe 0 lunch_payload Partial
              = (lunch_store, Ok (ERecipe lunch_recipe))) by (vm_compute; reflexivity).
  destruct (update_replaces_associations _ _ _ _ _ _ _ _ Hr H) as (Hm & _).
  split; [exact Hr|]. split; [exact H|].
  intros Hin. apply (proj2 (Hm ["Lunch"]%string eq_refl) 1) in Hin
    as (n & t & [<-|[]] & Hl & Hi).
  vm_compute in Hl. injection Hl as <-. discriminate Hi.
Defined.

Lemma update_ignores_owner_witness :
  update thai_store1 1 TRecipe 0 title_payload Partial = (title_store, Ok (ERecipe title_recipe)) /\
  r_user title_recipe = 1 /\
  update thai_store1 1 TRecipe 0 (with_user title_payload None) Partial
    = (title_store, Ok (ERecipe title_recipe)).
Proof.
  assert (H : update thai_store1 1 TRecipe 0 title_payload Partial
              = (title_store, Ok (ERecipe title_recipe))) by (vm_compute; reflexivity).
  destruct (update_ignores_owner _ _ _ _ _ _ _ _ H) as (Hu & e0 & _ & _ & Ho & _).
  split; [exact H|]. split; [exact Ho | exact (Hu None)].
Defined.

Lemma partial_update_merges_witness :
  get_object 1 TRecipe 0 thai_store1 = Ok (ERecipe thai_recipe1) /\
  update thai_store1 1 TRecipe 0 title_payload Partial = (title_store, Ok (ERecipe title_recipe)) /\
  link title_recipe = link thai_recipe1 /\ title title_recipe = "new recipe title"%string.
Proof.
  assert (Hr : get_object 1 TRecipe 0 thai_store1 = Ok (ERecipe thai_recipe1))
    by (vm_compute; reflexivity).
  assert (H : update thai_store1 1 TRecipe 0 title_payload Partial
              = (title_store, Ok (ERecipe title_recipe))) by (vm_compute; reflexivity).
  destruct (partial_update_merges _ _ _ _ _ _ _ Hr H) as (Ht & _ & _ & _ & Hl & _).
  split; [exact Hr|]. split; [exact H|]. split; [exact Hl | exact Ht].
Defined.

Lemma full_update_requires_and_replaces_witness :
  get_object 1 TRecipe 0 thai_store1 = Ok (ERecipe thai_recipe1) /\
  (exists fld, update thai_store1 1 TRecipe 0 title_payload Full
               = (thai_store1, Err (ValidationError fld))) /\
  (exists s' r', update thai_store1 1 TRecipe 0 full_update_payload Full
                 = (s', Ok (ERecipe r')) /\
     title r' = "New Sample recipe title"%string /\ time_minutes r' = 30%Z /\
     price r' = 625%Z /\ r_user r' = 1) /\
  get_object 1 TTag 1 thai_store1 = Ok (ETag (mkNamed 1 "Thai" 1)) /\
  update thai_store1 1 TTag 1 empty_payload Full
    = (thai_store1, Err (ValidationError "name")) /\
  (exists s', update thai_store1 1 TTag 1 dessert_payload Full
              = (s', Ok (ETag (mkNamed 1 "Dessert" 1)))).
Proof.
  assert (Hr : get_object 1 TRecipe 0 thai_store1 = Ok (ERecipe thai_recipe1))
    by (vm_compute; reflexivity).
  assert (Hg : get_object 1 TTag 1 thai_store1 = Ok (wrap_named TTag (mkNamed 1 "Thai" 1)))
    by (vm_compute; reflexivity).
  destruct (full_update_requires_and_replaces thai_store1 1)
    as (Hmiss & Hrep & Hok & Hname & Hnrep & Hnok).
  split; [exact Hr|]. split; [apply (Hmiss 0 thai_recipe1); [exact Hr | right; left; reflexivity]|].
  split.
  - destruct (Hok 0 thai_recipe1 full_update_payload "New Sample recipe title"%string 30%Z
                625%Z "New Sample description"%string "http//example.com/new_recipe.pdf"%string
                Hr eq_refl eq_refl eq_refl eq_refl eq_refl ltac:(lia) ltac:(lia)
                eq_refl eq_refl) as (s' & e & H).
    destruct (Hrep 0 thai_recipe1 full_update_payload "New Sample recipe title"%string 30%Z
                625%Z "New Sample description"%string "http//example.com/new_recipe.pdf"%string
                s' e Hr eq_refl eq_refl eq_refl eq_refl eq_refl H)
      as (r' & -> & Ht & Htm & Hpr & _ & _ & _ & Hu & _).
    exists s', r'. split; [exact H|]. split; [exact Ht|]. split; [exact Htm|].
    split; [exact Hpr|]. rewrite Hu. reflexivity.
  - split; [exact Hg|].
    split; [exact (Hname TTag 1 _ empty_payload ltac:(discriminate) Hg eq_refl)|].
    destruct (Hnok TTag 1 _ dessert_payload "Dessert"%string ltac:(discriminate) Hg eq_refl
                eq_refl) as (s' & e & H).
    exists s'. rewrite H.
    destruct (Hnrep TTag 1 _ dessert_payload "Dessert"%string s' e ltac:(discriminate) Hg
                eq_refl H) as (-> & _).
    reflexivity.
Defined.

Lemma foreign_mutation_atomic_witness :
  wf chinese_store /\ In (ETag (mkNamed 1 "Chinese" 2)) (entities chinese_store TTag) /\
  delete chinese_store 1 TTag 1 = (chinese_store, Err NotFound).
Proof.
  assert (Hwf : wf chinese_store)
    by (split; [constructor | split; [repeat constructor; simpl; lia | constructor]]).
  assert (Hin : In (ETag (mkNamed 1 "Chinese" 2)) (entities chinese_store TTag))
    by (simpl; tauto).
  destruct (foreign_mutation_atomic chinese_store 1 (ETag (mkNamed 1 "Chinese" 2))
              Hwf Hin ltac:(simpl; lia) empty_payload Partial) as (_ & H & _).
  split; [exact Hwf|]. split; [exact Hin | exact H].
Defined.

(** ** The test helper [create_recipe] against the ORM *)

Module RecipeTestsFacts.
Import RecipeTests.

Lemma count_named_snoc P m l t :
  count_named P m (l ++ [t]) =
  count_named P m l + (if owned_named P t && String.eqb (n_name t) m then 1 else 0).
Proof.
  rewrite count_named_app. unfold count_named at 2. simpl.
  destruct (owned_named P t && String.eqb (n_name t) m); reflexivity.
Qed.

Lemma get_or_create_tag_cases P n s :
  (count_named P n (tags s) = 0 /\
   get_or_create_tag P n s =
   (OOk (mkNamed (next_id s) n P),
    mkStore (recipes s) (tags s ++ [mkNamed (next_id s) n P]) (ingredients s)
      (S (next_id s))))
  \/ (exists t, count_named P n (tags s) = 1 /\ In t (tags s) /\ n_user t = P /\
        n_name t = n /\ get_or_create_tag P n s = (OOk t, s))
  \/ (2 <= count_named P n (tags s) /\
      get_or_create_tag P n s = (ORaise MultipleObjectsReturned, s)).
Proof.
  unfold get_or_create_tag, count_named.
  destruct (filter _ (tags s)) as [|t [|t' l]] eqn:E.
  - left. split; reflexivity.
  - right; left. exists t.
    assert (Ht : In t (filter (fun t => owned_named P t && String.eqb (n_name t) n) (tags s)))
      by (rewrite E; left; reflexivity).
    apply filter_In in Ht as [Hin Hp]. apply andb_prop in Hp as [Ho Hn].
    apply Nat.eqb_eq in Ho. apply String.eqb_eq in Hn.
    split; [reflexivity|]. split; [exact Hin|]. split; [exact Ho|].
    split; [exact Hn | reflexivity].
  - right; right. split; [simpl; lia | reflexivity].
Qed.

Lemma get_or_create_tag_count P n s res s1 :
  get_or_create_tag P n s = (res, s1) ->
  forall m, count_named P m (tags s1) = count_named P m (tags s)
            \/ (count_named P m (tags s) = 0 /\ count_named P m (tags s1) = 1).
Proof.
  intros H m.
  destruct (get_or_create_tag_cases P n s)
    as [(H0 & E)|[(t & _ & _ & _ & _ & E)|(_ & E)]];
    rewrite E in H; injection H as <- <-; try (left; reflexivity).
  simpl. rewrite count_named_snoc. unfold owned_named. simpl. rewrite Nat.eqb_refl.
  simpl. destruct (String.eqb n m) eqn:Enm.
  - apply String.eqb_eq in Enm. subst m. right. lia.
  - left. lia.
Qed.

Lemma get_or_create_all_count P names s res s' :
  get_or_create_all P names s = (res, s') ->
  forall m, count_named P m (tags s') = count_named P m (tags s)
            \/ (count_named P m (tags s) = 0 /\ count_named P m (tags s') = 1).
Proof.
  revert s res s'. induction names as [|n ns IH]; intros s res s' H m; simpl in H.
  - injection H as _ <-. left. reflexivity.
  - destruct (get_or_create_tag P n s) as [[t|e] s1] eqn:E1.
    + pose proof (get_or_create_tag_count P n s _ _ E1 m) as H1.
      destruct (get_or_create_all P ns s1) as [[ts|e] s2] eqn:E2;
        injection H as _ <-; pose proof (IH _ _ _ E2 m) as H2; lia.
    + injection H as _ <-. pose proof (get_or_create_tag_count P n s _ _ E1 m). lia.
Qed.

Lemma get_or_create_all_store P names s res s' :
  get_or_create_all P names s = (res, s') ->
  recipes s' = recipes s /\ ingredients s' = ingredients s /\
  exists new, tags s' = tags s ++ new /\ NoDup (map n_name new) /\
  forall t, In t new ->
    n_user t = P /\ In (n_name t) names /\ count_named P (n_name t) (tags s) = 0.
Proof.
  revert s res s'. induction names as [|n ns IH]; intros s res s' H; simpl in H.
  - injection H as _ <-. split; [reflexivity|]. split; [reflexivity|].
    exists []. rewrite app_nil_r. split; [reflexivity|]. split; [constructor|].
    intros t [].
  - destruct (get_or_create_tag_cases P n s)
      as [(H0 & E)|[(t & H1 & Hin & Hu & Hn & E)|(H2 & E)]]; rewrite E in H;
      cbv beta iota in H.
    + destruct (get_or_create_all P ns _) as [res2 s2] eqn:E2.
      assert (Hs : s2 = s') by (destruct res2; injection H as _ Hs; exact Hs). subst s'.
      destruct (IH _ _ _ E2) as (Hr & Hi & new & Ht & Hnd & Hnew). simpl in Hr, Hi, Ht.
      split; [exact Hr|]. split; [exact Hi|].
      exists (mkNamed (next_id s) n P :: new).
      split; [rewrite Ht, <- app_assoc; reflexivity|].
      split.
      * simpl. constructor; [|exact Hnd].
        intros Hin. apply in_map_iff in Hin as (t & Htn & Hin).
        destruct (Hnew t Hin) as (_ & _ & Hz). rewrite Htn in Hz. cbn [tags] in Hz.
        rewrite count_named_snoc in Hz. unfold owned_named in Hz. simpl in Hz.
        rewrite Nat.eqb_refl, String.eqb_refl in Hz. simpl in Hz. lia.
      * intros t [<-|Hin].
        -- simpl. split; [reflexivity|]. split; [left; reflexivity | exact H0].
        -- destruct (Hnew t Hin) as (Hu & Hn & Hz).
           split; [exact Hu|]. split; [right; exact Hn|].
           cbn [tags] in Hz. rewrite count_named_snoc in Hz. lia.
    + destruct (get_or_create_all P ns s) as [res2 s2] eqn:E2.
      assert (Hs : s2 = s') by (destruct res2; injection H as _ Hs; exact Hs). subst s'.
      destruct (IH _ _ _ E2) as (Hr & Hi & new & Ht & Hnd & Hnew).
      split; [exact Hr|]. split; [exact Hi|]. exists new.
      split; [exact Ht|]. split; [exact Hnd|].
      intros t' Ht'. destruct (Hnew t' Ht') as (Hu' & Hn' & Hz).
      split; [exact Hu'|]. split; [right; exact Hn' | exact Hz].
    + injection H as _ <-. split; [reflexivity|]. split; [reflexivity|].
      exists []. rewrite app_nil_r. split; [reflexivity|]. split; [constructor|].
      intros t [].
Qed.

Lemma get_or_create_all_ok P names s ts s' :
  get_or_create_all P names s = (OOk ts, s') ->
  Forall2 (fun n t => In t (tags s') /\ n_user t = P /\ n_name t = n /\
                      count_named P n (tags s') = 1) names ts.
Proof.
  revert s ts s'. induction names as [|n ns IH]; intros s ts s' H; simpl in H.
  - injection H as <- _. constructor.
  - assert (Hstep : exists t s1, get_or_create_tag P n s = (OOk t, s1) /\
              In t (tags s1) /\ n_user t = P /\ n_name t = n /\
              count_named P n (tags s1) = 1).
    { destruct (get_or_create_tag_cases P n s)
        as [(H0 & E)|[(t & H1 & Hin & Hu & Hn & E)|(H2 & E)]].
      - eexists _, _. split; [exact E|]. simpl.
        split; [apply in_or_app; right; left; reflexivity|].
        split; [reflexivity|]. split; [reflexivity|].
        rewrite count_named_snoc. unfold owned_named. simpl.
        rewrite Nat.eqb_refl, String.eqb_refl. simpl. lia.
      - exists t, s. split; [exact E|]. tauto.
      - rewrite E in H. discriminate. }
    destruct Hstep as (t & s1 & E1 & Hin & Hu & Hn & Hc).
    rewrite E1 in H. cbv beta iota in H.
    destruct (get_or_create_all P ns s1) as [[ts'|e] s2] eqn:E2; [|discriminate].
    injection H as <- <-.
    destruct (get_or_create_all_store _ _ _ _ _ E2) as (_ & _ & new & Ht & _).
    constructor; [|exact (IH _ _ _ E2)].
    split; [rewrite Ht; apply in_or_app; left; exact Hin|].
    split; [exact Hu|]. split; [exact Hn|].
    destruct (get_or_create_all_count _ _ _ _ _ E2 n); lia.
Qed.

Lemma get_or_create_all_ok_counts P names s ts s' :
  get_or_create_all P names s = (OOk ts, s') ->
  forall n, In n names -> count_named P n (tags s) <= 1.
Proof.
  intros H n Hn.
  destruct (Forall2_in_l _ _ _ n (get_or_create_all_ok _ _ _ _ _ H) Hn)
    as (t & _ & _ & _ & _ & Hc).
  destruct (get_or_create_all_count _ _ _ _ _ H n); lia.
Qed.

Lemma get_or_create_all_succeeds P names s :
  (forall n, In n names -> count_named P n (tags s) <= 1) ->
  exists ts s', get_or_create_all P names s = (OOk ts, s').
Proof.
  revert s. induction names as [|n ns IH]; intros s Hc; simpl.
  - eexists _, _. reflexivity.
  - assert (Hstep : exists t s1, get_or_create_tag P n s = (OOk t, s1)).
    { destruct (get_or_create_tag_cases P n s)
        as [(H0 & E)|[(t & H1 & Hin & Hu & Hn & E)|(H2 & E)]].
      - eexists _, _. exact E.
      - eexists _, _. exact E.
      - specialize (Hc n (or_introl eq_refl)). lia. }
    destruct Hstep as (t & s1 & E1). rewrite E1. cbv beta iota.
    destruct (IH s1) as (ts & s' & E2).
    { intros m Hm. specialize (Hc m (or_intror Hm)).
      destruct (get_or_create_tag_count _ _ _ _ _ E1 m); lia. }
    rewrite E2. eexists _, _. reflexivity.
Qed.

Lemma get_or_create_all_raises P names s e s' :
  get_or_create_all P names s = (ORaise e, s') ->
  exists n, In n names /\ 2 <= count_named P n (tags s).
Proof.
  revert s e s'. induction names as [|n ns IH]; intros s e s' H; simpl in H.
  - discriminate.
  - destruct (get_or_create_tag_cases P n s)
      as [(H0 & E)|[(t & H1 & Hin & Hu & Hn & E)|(H2 & E)]].
    + rewrite E in H. cbv beta iota in H.
      destruct (get_or_create_all P ns _) as [[ts|e'] s2] eqn:E2; [discriminate|].
      destruct (IH _ _ _ E2) as (m & Hm & Hc). exists m. split; [right; exact Hm|].
      destruct (get_or_create_tag_count _ _ _ _ _ E m); lia.
    + rewrite E in H. cbv beta iota in H.
      destruct (get_or_create_all P ns s) as [[ts|e'] s2] eqn:E2; [discriminate|].
      destruct (IH _ _ _ E2) as (m & Hm & Hc). exists m. split; [right; exact Hm | exact Hc].
    + exists n. split; [left; reflexivity | exact H2].
Qed.

Lemma get_or_create_all_present P names s :
  (forall n, In n names -> count_named P n (tags s) = 1) ->
  exists ts, get_or_create_all P names s = (OOk ts, s).
Proof.
  induction names as [|n ns IH]; intros Hc; simpl.
  - eexists. reflexivity.
  - destruct (get_or_create_tag_cases P n s)
      as [(H0 & E)|[(t & H1 & Hin & Hu & Hn & E)|(H2 & E)]];
      specialize (Hc n (or_introl eq_refl)) as Hn1; try lia.
    rewrite E. cbv beta iota.
    destruct IH as (ts & E2); [intros m Hm; exact (Hc m (or_intror Hm))|].
    rewrite E2. eexists. reflexivity.
Qed.

Lemma named_unique P n l t t' :
  count_named P n l = 1 -> In t l -> n_user t = P -> n_name t = n ->
  In t' l -> n_user t' = P -> n_name t' = n -> t = t'.
Proof.
  unfold count_named. intros Hc Hin Hu Hn Hin' Hu' Hn'.
  assert (Hf : forall x, In x l -> n_user x = P -> n_name x = n ->
            In x (filter (fun t => owned_named P t && String.eqb (n_name t) n) l)).
  { intros x Hx Hux Hnx. apply filter_In. split; [exact Hx|].
    unfold owned_named. rewrite Hux, Hnx, Nat.eqb_refl, String.eqb_refl. reflexivity. }
  pose proof (Hf t Hin Hu Hn) as Ht. pose proof (Hf t' Hin' Hu' Hn') as Ht'.
  destruct (filter _ l) as [|x [|y r]]; simpl in Hc; try discriminate.
  destruct Ht as [<-|[]]. destruct Ht' as [<-|[]]. reflexivity.
Qed.

Lemma Forall2_named_unique P l names ts1 ts2 :
  Forall2 (fun n t => In t l /\ n_user t = P /\ n_name t = n /\
                      count_named P n l = 1) names ts1 ->
  Forall2 (fun n t => In t l /\ n_user t = P /\ n_name t = n) names ts2 ->
  ts1 = ts2.
Proof.
  intros H1. revert ts2.
  induction H1 as [|n t1 ns ts1 (Hin & Hu & Hn & Hc) _ IH]; intros ts2 H2;
    inversion H2 as [|? t2 ? ts2' (Hin' & Hu' & Hn') H2'].
  - reflexivity.
  - f_equal; [exact (named_unique P n l t1 t2 Hc Hin Hu Hn Hin' Hu' Hn')|].
    exact (IH _ H2').
Qed.

Lemma replace_recipe_snoc r x l :
  Forall (fun y => rec_id y <> rec_id r) l -> rec_id x = rec_id r ->
  replace_recipe r (l ++ [x]) = l ++ [r].
Proof.
  unfold replace_recipe. intros Hl Hx. rewrite map_app. simpl.
  rewrite Hx, Nat.eqb_refl. f_equal.
  induction Hl as [|y l Hy _ IH]; [reflexivity|]. simpl.
  apply Nat.eqb_neq in Hy. rewrite Hy, IH. reflexivity.
Qed.

Lemma create_recipe_unfold payload P params s :
  create_recipe payload P params s =
  match helper_tags payload params with
  | [] =>
      (OOk (new_recipe_row P (dict_update payload params) s),
       mkStore (recipes s ++ [new_recipe_row P (dict_update payload params) s])
         (tags s) (ingredients s) (S (next_id s)))
  | _ :: _ =>
      match get_or_create_all P (helper_tags payload params)
              (mkStore (recipes s ++ [new_recipe_row P (dict_update payload params) s])
                 (tags s) (ingredients s) (S (next_id s))) with
      | (OOk objs, s2) => tags_set (new_recipe_row P (dict_update payload params) s) objs s2
      | (ORaise e, s2) => (ORaise e, s2)
      end
  end.
Proof.
  unfold create_recipe, helper_tags, objects_create_recipe.
  destruct (default [] (d_tags (dict_update payload params))); reflexivity.
Qed.

(** Both calls of the helper give the same recipe row fields. *)
Lemma new_recipe_row_fields P payload params s :
  let r := new_recipe_row P (dict_update payload params) s in
  rec_id r = next_id s /\ r_user r = P /\
  title r = default (d_title payload) (prm_title params) /\
  time_minutes r = default (d_time_minutes payload) (prm_time_minutes params) /\
  price r = default (d_price payload) (prm_price params) /\
  description r = default (d_description payload) (prm_description params) /\
  link r = default (d_link payload) (prm_link params) /\ r_ingredients r = [].
Proof. simpl. tauto. Qed.

(** X: the helper inserts one recipe row, the last one, with the next key,
    the owner [user], the [TEST_PAYLOAD] values overridden by the keywords
    and no ingredients. *)
Theorem helper_creates_recipe_row payload P params s r s' :
  Forall (fun x => rec_id x < next_id s) (recipes s) ->
  create_recipe payload P params s = (OOk r, s') ->
  recipes s' = recipes s ++ [r] /\ rec_id r = next_id s /\ r_user r = P /\
  title r = default (d_title payload) (prm_title params) /\
  time_minutes r = default (d_time_minutes payload) (prm_time_minutes params) /\
  price r = default (d_price payload) (prm_price params) /\
  description r = default (d_description payload) (prm_description params) /\
  link r = default (d_link payload) (prm_link params) /\ r_ingredients r = [].
Proof.
  intros Hfresh H. rewrite create_recipe_unfold in H.
  pose proof (new_recipe_row_fields P payload params s) as Hf. simpl in Hf.
  destruct (helper_tags payload params) as [|n ns] eqn:Ht.
  - injection H as <- <-. simpl. split; [reflexivity | exact Hf].
  - destruct (get_or_create_all P (n :: ns) _) as [[objs|e] s2] eqn:E; [|discriminate].
    destruct (get_or_create_all_store _ _ _ _ _ E) as (Hr & _).
    unfold tags_set in H. injection H as <- <-. simpl.
    rewrite Hr. simpl. split; [|exact Hf].
    apply replace_recipe_snoc; [|reflexivity].
    simpl. eapply Forall_impl; [|exact Hfresh]. intros y Hy. simpl in Hy. lia.
Qed.

(** X: on success every descriptor names exactly one tag of the user, whose
    key is in the recipe's tag set, and that set holds only such keys, each
    once. *)
Theorem helper_links_named_tags payload P params s r s' :
  create_recipe payload P params s = (OOk r, s') ->
  NoDup (r_tags r) /\
  (forall n, In n (helper_tags payload params) ->
     count_named P n (tags s') = 1 /\
     exists t, In t (tags s') /\ n_user t = P /\ n_name t = n /\ In (n_id t) (r_tags r)) /\
  (forall i, In i (r_tags r) ->
     exists t, In t (tags s') /\ n_id t = i /\ n_user t = P /\
               In (n_name t) (helper_tags payload params)).
Proof.
  intros H. rewrite create_recipe_unfold in H.
  destruct (helper_tags payload params) as [|n ns] eqn:Ht.
  - injection H as <- <-. simpl.
    split; [constructor|]. split; intros ? [].
  - destruct (get_or_create_all P (n :: ns) _) as [[objs|e] s2] eqn:E; [|discriminate].
    pose proof (get_or_create_all_ok _ _ _ _ _ E) as HF.
    unfold tags_set in H. injection H as <- <-. simpl.
    split; [apply NoDup_nodup|]. split.
    + intros m Hm.
      destruct (Forall2_in_l _ _ _ m HF Hm) as (t & Hto & Hin & Hu & Hn & Hc).
      split; [exact Hc|]. exists t.
      split; [exact Hin|]. split; [exact Hu|]. split; [exact Hn|].
      apply nodup_In. apply in_map. exact Hto.
    + intros i Hi. apply nodup_In, in_map_iff in Hi as (t & Hti & Hto).
      destruct (Forall2_in_r _ _ _ t HF Hto) as (m & Hm & Hin & Hu & Hn & _).
      exists t. split; [exact Hin|]. split; [exact Hti|]. split; [exact Hu|].
      rewrite Hn. exact Hm.
Qed.

(** X: the helper raises exactly when one of the descriptors names two or
    more tags of the user. *)
Theorem helper_raises_iff_ambiguous payload P params s :
  (exists e s', create_recipe payload P params s = (ORaise e, s')) <->
  exists n, In n (helper_tags payload params) /\ 2 <= count_named P n (tags s).
Proof.
  rewrite create_recipe_unfold.
  destruct (helper_tags payload params) as [|n ns] eqn:Ht.
  - split; [intros (e & s' & H); discriminate | intros (n & [] & _)].
  - destruct (get_or_create_all P (n :: ns) _) as [[objs|e] s2] eqn:E; split.
    + intros (e & s' & H). discriminate.
    + intros (m & Hm & Hc).
      pose proof (get_or_create_all_ok_counts _ _ _ _ _ E m Hm). simpl in *. lia.
    + intros _. destruct (get_or_create_all_raises _ _ _ _ _ E) as (m & Hm & Hc).
      exists m. split; [exact Hm | exact Hc].
    + intros _. exists e, s2. reflexivity.
Qed.

(** X: when the helper raises, the recipe row it inserted first stays, with
    no tags. *)
Theorem helper_raise_keeps_row payload P params s e s' :
  create_recipe payload P params s = (ORaise e, s') ->
  exists r, recipes s' = recipes s ++ [r] /\ rec_id r = next_id s /\ r_user r = P /\
            r_tags r = [].
Proof.
  intros H. rewrite create_recipe_unfold in H.
  destruct (helper_tags payload params) as [|n ns] eqn:Ht; [discriminate|].
  destruct (get_or_create_all P (n :: ns) _) as [[objs|e'] s2] eqn:E; [discriminate|].
  assert (Hs : s' = s2) by congruence. subst s'.
  destruct (get_or_create_all_store _ _ _ _ _ E) as (Hr & _).
  eexists. rewrite Hr. split; [reflexivity|]. simpl. tauto.
Qed.

(** X: whatever the outcome, the helper only appends tags of the user, one
    per descriptor name the user had no tag for; other tags and the
    ingredients stay. *)
Theorem helper_adds_missing_tags_only payload P params s :
  let s' := snd (create_recipe payload P params s) in
  ingredients s' = ingredients s /\
  exists new, tags s' = tags s ++ new /\ NoDup (map n_name new) /\
  forall t, In t new ->
    n_user t = P /\ In (n_name t) (helper_tags payload params) /\
    count_named P (n_name t) (tags s) = 0.
Proof.
  cbv zeta. rewrite create_recipe_unfold.
  destruct (helper_tags payload params) as [|n ns] eqn:Ht.
  - simpl. split; [reflexivity|]. exists []. rewrite app_nil_r.
    split; [reflexivity|]. split; [constructor | intros t []].
  - destruct (get_or_create_all P (n :: ns) _) as [[objs|e] s2] eqn:E;
      destruct (get_or_create_all_store _ _ _ _ _ E) as (_ & Hi & new & Htg & Hnd & Hnew);
      simpl in Hi, Htg; simpl; (split; [exact Hi|]); exists new; rewrite Htg;
      (split; [reflexivity|]); (split; [exact Hnd|]); exact Hnew.
Qed.

(** X: calling the helper again with the same arguments after a success
    succeeds, creates no tag and links the same tags. *)
Theorem helper_repeat_reuses_tags payload P params s r1 s1 :
  create_recipe payload P params s = (OOk r1, s1) ->
  exists r2 s2, create_recipe payload P params s1 = (OOk r2, s2) /\
                tags s2 = tags s1 /\ r_tags r2 = r_tags r1.
Proof.
  intros H. rewrite create_recipe_unfold in H. rewrite create_recipe_unfold.
  destruct (helper_tags payload params) as [|n ns] eqn:Ht.
  - injection H as <- <-. eexists _, _. split; [reflexivity|]. simpl. tauto.
  - destruct (get_or_create_all P (n :: ns) _) as [[objs|e] s2] eqn:E; [|discriminate].
    pose proof (get_or_create_all_ok _ _ _ _ _ E) as HF.
    unfold tags_set in H. injection H as <- <-. simpl in HF.
    match goal with
    | |- context [get_or_create_all P (n :: ns) ?st] =>
        destruct (get_or_create_all_present P (n :: ns) st) as (objs' & E')
    end.
    { intros m Hm. destruct (Forall2_in_l _ _ _ m HF Hm) as (t & _ & _ & _ & _ & Hc).
      exact Hc. }
    rewrite E'. unfold tags_set. eexists _, _. split; [reflexivity|]. simpl.
    split; [reflexivity|].
    pose proof (get_or_create_all_ok _ _ _ _ _ E') as HF'. simpl in HF'.
    rewrite (Forall2_named_unique P (tags s2) (n :: ns) objs objs' HF); [reflexivity|].
    eapply Forall2_impl; [|exact HF']. simpl. tauto.
Qed.

Lemma heap_get_put h r d d' :
  heap_get h r = Some d -> heap_get (heap_put h r d') r = Some d'.
Proof.
  unfold heap_get. revert r. induction h as [|x h IH]; intros [|r]; simpl;
    try discriminate; auto.
Qed.

(** X: [test_create_recipe_with_existing_tags] writes ['tags'] into the
    module-level [TEST_PAYLOAD] object through its alias [payload]: from a
    heap where [TEST_PAYLOAD] holds its module value, the global then holds
    the dict with the tags "Chinese" and "Japanese".  Before, the helper
    without keywords links no tag and leaves the tag table as it is; after,
    when the user has at most one tag named "Chinese" and at most one named
    "Japanese" (with more, [get_or_create] raises), it links a tag of the
    user with each of those names. *)
Theorem helper_default_tags_after_existing_tags_test h P s :
  heap_get h TEST_PAYLOAD_ref = Some TEST_PAYLOAD ->
  heap_get (existing_tags_test_setup h) TEST_PAYLOAD_ref
    = Some (set_tags TEST_PAYLOAD ["Chinese"; "Japanese"]%string) /\
  (exists r s', create_recipe_call h P no_params s = Some (OOk r, s') /\
                r_tags r = [] /\ tags s' = tags s) /\
  (count_named P "Chinese" (tags s) <= 1 -> count_named P "Japanese" (tags s) <= 1 ->
   exists r s', create_recipe_call (existing_tags_test_setup h) P no_params s
                  = Some (OOk r, s') /\
     forall n, In n ["Chinese"; "Japanese"]%string ->
       exists t, In t (tags s') /\ n_user t = P /\ n_name t = n /\ In (n_id t) (r_tags r)).
Proof.
  intros H.
  assert (Hset : heap_get (existing_tags_test_setup h) TEST_PAYLOAD_ref
                 = Some TEST_PAYLOAD_after_existing_tags).
  { unfold existing_tags_test_setup, dict_setitem_tags. rewrite H.
    exact (heap_get_put _ _ _ _ H). }
  split; [exact Hset|]. unfold create_recipe_call. rewrite Hset, H. split.
  - eexists _, _. split; [reflexivity|]. simpl. tauto.
  - intros HC HJ. rewrite create_recipe_unfold.
    change (helper_tags TEST_PAYLOAD_after_existing_tags no_params)
      with ["Chinese"; "Japanese"]%string. cbv iota.
    destruct (get_or_create_all_succeeds P ["Chinese"; "Japanese"]%string
                (mkStore (recipes s ++ [new_recipe_row P (dict_update TEST_PAYLOAD_after_existing_tags no_params) s])
                   (tags s) (ingredients s) (S (next_id s)))) as (objs & s2 & E).
    { simpl. intros n [<-|[<-|[]]]; assumption. }
    rewrite E. unfold tags_set. eexists _, _. split; [reflexivity|].
    pose proof (get_or_create_all_ok _ _ _ _ _ E) as HF.
    intros n Hn. destruct (Forall2_in_l _ _ _ n HF Hn) as (t & Hto & Hin & Hu & Hnm & _).
    exists t. simpl. split; [exact Hin|]. split; [exact Hu|]. split; [exact Hnm|].
    apply nodup_In, in_map. exact Hto.
Qed.

Lemma helper_creates_recipe_row_witness :
  Forall (fun x => rec_id x < next_id chinese_store) (recipes chinese_store) /\
  create_recipe TEST_PAYLOAD_after_existing_tags 1 no_params chinese_store =
    (OOk leaked_recipe, leaked_store) /\
  recipes leaked_store = recipes chinese_store ++ [leaked_recipe] /\
  rec_id leaked_recipe = next_id chinese_store.
Proof.
  assert (H1 : Forall (fun x => rec_id x < next_id chinese_store) (recipes chinese_store))
    by constructor.
  assert (H2 : create_recipe TEST_PAYLOAD_after_existing_tags 1 no_params chinese_store =
                 (OOk leaked_recipe, leaked_store)) by (vm_compute; reflexivity).
  destruct (helper_creates_recipe_row _ _ _ _ _ _ H1 H2) as (Ha & Hb & _).
  split; [exact H1|]. split; [exact H2|]. split; [exact Ha | exact Hb].
Defined.

Lemma helper_links_named_tags_witness :
  create_recipe TEST_PAYLOAD_after_existing_tags 1 no_params chinese_store =
    (OOk leaked_recipe, leaked_store) /\
  NoDup (r_tags leaked_recipe).
Proof.
  assert (H : create_recipe TEST_PAYLOAD_after_existing_tags 1 no_params chinese_store =
                (OOk leaked_recipe, leaked_store)) by (vm_compute; reflexivity).
  destruct (helper_links_named_tags _ _ _ _ _ _ H) as (Hnd & _).
  split; [exact H | exact Hnd].
Defined.

Lemma helper_raises_iff_ambiguous_witness :
  (exists n, In n (helper_tags TEST_PAYLOAD_after_existing_tags no_params) /\
             2 <= count_named 1 n (tags twice_chinese_store)) /\
  exists e s', create_recipe TEST_PAYLOAD_after_existing_tags 1 no_params
                 twice_chinese_store = (ORaise e, s').
Proof.
  assert (H : exists n, In n (helper_tags TEST_PAYLOAD_after_existing_tags no_params) /\
                        2 <= count_named 1 n (tags twice_chinese_store)).
  { exists "Chinese"%string. split; [vm_compute; left; reflexivity | vm_compute; lia]. }
  split; [exact H|].
  exact (proj2 (helper_raises_iff_ambiguous _ _ _ _) H).
Defined.

Lemma helper_raise_keeps_row_witness :
  create_recipe TEST_PAYLOAD_after_existing_tags 1 no_params twice_chinese_store =
    (ORaise MultipleObjectsReturned, ambiguous_store) /\
  exists r, recipes ambiguous_store = recipes twice_chinese_store ++ [r] /\
            rec_id r = next_id twice_chinese_store /\ r_user r = 1 /\ r_tags r = [].
Proof.
  assert (H : create_recipe TEST_PAYLOAD_after_existing_tags 1 no_params twice_chinese_store =
                (ORaise MultipleObjectsReturned, ambiguous_store)) by (vm_compute; reflexivity).
  split; [exact H | exact (helper_raise_keeps_row _ _ _ _ _ _ H)].
Defined.

Lemma helper_repeat_reuses_tags_witness :
  create_recipe TEST_PAYLOAD_after_existing_tags 1 no_params chinese_store =
    (OOk leaked_recipe, leaked_store) /\
  exists r2 s2, create_recipe TEST_PAYLOAD_after_existing_tags 1 no_params leaked_store =
                  (OOk r2, s2) /\ tags s2 = tags leaked_store /\
                r_tags r2 = r_tags leaked_recipe.
Proof.
  assert (H : create_recipe TEST_PAYLOAD_after_existing_tags 1 no_params chinese_store =
                (OOk leaked_recipe, leaked_store)) by (vm_compute; reflexivity).
  split; [exact H | exact (helper_repeat_reuses_tags _ _ _ _ _ _ H)].
Defined.

Lemma helper_default_tags_after_existing_tags_test_witness :
  heap_get module_heap TEST_PAYLOAD_ref = Some TEST_PAYLOAD /\
  count_named 1 "Chinese" (tags chinese_store) <= 1 /\
  count_named 1 "Japanese" (tags chinese_store) <= 1 /\
  heap_get (existing_tags_test_setup module_heap) TEST_PAYLOAD_ref
    = Some (set_tags TEST_PAYLOAD ["Chinese"; "Japanese"]%string) /\
  exists r s', create_recipe_call (existing_tags_test_setup module_heap) 1 no_params
                 chinese_store = Some (OOk r, s') /\
    forall n, In n ["Chinese"; "Japanese"]%string ->
      exists t, In t (tags s') /\ n_user t = 1 /\ n_name t = n /\ In (n_id t) (r_tags r).
Proof.
  assert (Hh : heap_get module_heap TEST_PAYLOAD_ref = Some TEST_PAYLOAD) by reflexivity.
  assert (HC : count_named 1 "Chinese" (tags chinese_store) <= 1) by (vm_compute; lia).
  assert (HJ : count_named 1 "Japanese" (tags chinese_store) <= 1) by (vm_compute; lia).
  destruct (helper_default_tags_after_existing_tags_test module_heap 1 chinese_store Hh)
    as (Hset & _ & Hafter).
  split; [exact Hh|]. split; [exact HC|]. split; [exact HJ|]. split; [exact Hset|].
  exact (Hafter HC HJ).
Defined.

End RecipeTestsFacts.

(** ** The [wait_for_db] command *)

Module WaitForDbFacts.
Import WaitForDb.

(** X: the [wait_for_db] command as written never reports the database
    available and never waits.  Whatever the database does, either the
    import of [pyscopg2] on line 8 fails with [ModuleNotFoundError] before
    anything is written, or (should such a module exist) the first
    [self.check(dataases=...)] raises [TypeError], since [check] takes no
    keyword [dataases], after only the waiting line. *)
Theorem wait_for_db_never_reports_available found d db :
  run_wait_for_db found (d :: db) =
  if found then ([Plain waiting_msg], 0, Propagated "TypeError"%string)
  else ([], 0, Propagated "ModuleNotFoundError"%string).
Proof. destruct found; reflexivity. Qed.

End WaitForDbFacts.

(** ** Keys stay unique; deletes of one's own entities *)

Lemma next_id_set_table k l s : next_id (set_table k l s) = next_id s.
Proof. destruct k; reflexivity. Qed.

Lemma resolve_all_keys k P names :
  forall s ids s', resolve_all k P names s = Ok (ids, s') ->
  next_id s <= next_id s' /\ recipes s' = recipes s /\
  table (other k) s' = table (other k) s /\
  exists new, table k s' = table k s ++ new /\ NoDup (map n_id new) /\
    Forall (fun t => next_id s <= n_id t < next_id s') new.
Proof.
  induction names as [|n ns IH]; intros s ids s' H.
  - cbv [resolve_all ret] in H. injection H as _ <-.
    split; [lia|]. split; [reflexivity|]. split; [reflexivity|].
    exists []. rewrite app_nil_r. split; [reflexivity|]. split; constructor.
  - change (resolve_all k P (n :: ns) s) with
      (bind (get_or_create k P n) (fun i => bind (resolve_all k P ns)
                                              (fun is => ret (i :: is))) s) in H.
    unfold bind at 1 in H. destruct (name_ok n) eqn:Hok;
      [|rewrite get_or_create_blank in H by exact Hok; discriminate].
    rewrite get_or_create_eq in H by exact Hok.
    destruct (lookup_name P n (table k s)) as [t|] eqn:Hl; cbv beta iota zeta in H;
      unfold bind, ret in H;
      destruct (resolve_all k P ns _) as [[is s2]|e] eqn:E; try discriminate;
      injection H as _ <-;
      destruct (IH _ _ _ E) as (Hn & Hr & Ho & new & Ht & Hnd & Hf).
    + split; [exact Hn|]. split; [exact Hr|]. split; [exact Ho|].
      exists new. split; [exact Ht|]. split; [exact Hnd | exact Hf].
    + rewrite next_id_set_table in Hn. rewrite recipes_set_table in Hr.
      rewrite table_other_set_table, table_bump in Ho.
      rewrite table_set_table, table_bump in Ht. rewrite next_id_set_table in Hf.
      simpl in Hn, Hr, Hf.
      split; [lia|]. split; [exact Hr|]. split; [exact Ho|].
      exists (mkNamed (next_id s) n P :: new).
      split; [rewrite Ht, <- app_assoc; reflexivity|]. split.
      * simpl. constructor; [|exact Hnd]. intros Hin.
        apply in_map_iff in Hin as (x & Hx & Hin). rewrite Forall_forall in Hf.
        specialize (Hf x Hin). lia.
      * constructor; [simpl; lia|]. eapply Forall_impl; [|exact Hf].
        intros x Hx. simpl in Hx. lia.
Qed.

Lemma write_assoc_keys k P v old s ids s' :
  write_assoc k P v old s = Ok (ids, s') ->
  next_id s <= next_id s' /\ recipes s' = recipes s /\
  table (other k) s' = table (other k) s /\
  exists new, table k s' = table k s ++ new /\ NoDup (map n_id new) /\
    Forall (fun t => next_id s <= n_id t < next_id s') new.
Proof.
  rewrite write_assoc_eq. destruct v as [names|]; intros H.
  - destruct (reconcile_spec _ _ _ _ _ _ H) as (ids0 & _ & E).
    exact (resolve_all_keys _ _ _ _ _ _ E).
  - injection H as _ <-. split; [lia|]. split; [reflexivity|]. split; [reflexivity|].
    exists []. rewrite app_nil_r. split; [reflexivity|]. split; constructor.
Qed.

Lemma Forall_lt_weaken l a b :
  Forall (fun i => i < a) l -> a <= b -> Forall (fun i => i < b) l.
Proof. intros H Hab. eapply Forall_impl; [|exact H]. intros i Hi. simpl in Hi. lia. Qed.

Lemma keys_append (l new : list Named) a b :
  a <= b -> NoDup (map n_id l) -> Forall (fun i => i < a) (map n_id l) ->
  NoDup (map n_id new) -> Forall (fun t => a <= n_id t < b) new ->
  NoDup (map n_id (l ++ new)) /\ Forall (fun i => i < b) (map n_id (l ++ new)).
Proof.
  intros Hab Hnd Hf Hnd' Hnew. rewrite map_app. split.
  - apply NoDup_app; [exact Hnd | exact Hnd' |]. intros i Hi Hi'.
    rewrite Forall_forall in Hf. specialize (Hf i Hi).
    apply in_map_iff in Hi' as (t & Hti & Ht). rewrite Forall_forall in Hnew.
    specialize (Hnew t Ht). lia.
  - apply Forall_app. split; [exact (Forall_lt_weaken _ _ _ Hf Hab)|].
    apply Forall_map. eapply Forall_impl; [|exact Hnew]. intros t Ht. simpl in Ht. lia.
Qed.

Lemma keys_snoc (ids : list nat) i b :
  NoDup ids -> Forall (fun j => j < i) ids -> i < b ->
  NoDup (ids ++ [i]) /\ Forall (fun j => j < b) (ids ++ [i]).
Proof.
  intros Hnd Hf Hib. split.
  - apply NoDup_app; [exact Hnd | repeat constructor; intros [] |].
    intros j Hj [Hji|[]]. rewrite Forall_forall in Hf. specialize (Hf j Hj). lia.
  - apply Forall_app. split; [exact (Forall_lt_weaken _ i b Hf ltac:(lia))|].
    repeat constructor. exact Hib.
Qed.

Lemma map_filter_nodup {A} (f : A -> nat) p l :
  NoDup (map f l) -> NoDup (map f (filter p l)).
Proof.
  induction l as [|a l IH]; simpl; intros H; [constructor|].
  inversion H as [|? ? Hnin Hnd]; subst.
  destruct (p a); simpl; [|exact (IH Hnd)].
  constructor; [|exact (IH Hnd)]. intros Hin. apply Hnin.
  apply in_map_iff in Hin as (x & Hx & Hin). apply filter_In in Hin as [Hin _].
  rewrite <- Hx. apply in_map. exact Hin.
Qed.

Lemma map_filter_forall {A} (f : A -> nat) (Q : nat -> Prop) p l :
  Forall Q (map f l) -> Forall Q (map f (filter p l)).
Proof.
  rewrite !Forall_forall. intros H i Hi. apply in_map_iff in Hi as (x & <- & Hx).
  apply filter_In in Hx as [Hx _]. apply H. apply in_map. exact Hx.
Qed.

Lemma map_rec_id_unlink k i l : map rec_id (map (unlink k i) l) = map rec_id l.
Proof. rewrite map_map. apply map_ext. intros r. destruct k; reflexivity. Qed.

Lemma map_rec_id_replace r l : map rec_id (replace_recipe r l) = map rec_id l.
Proof.
  unfold replace_recipe. rewrite map_map. apply map_ext. intros x.
  destruct (Nat.eqb (rec_id x) (rec_id r)) eqn:E; [apply Nat.eqb_eq in E; congruence|].
  reflexivity.
Qed.

Lemma map_n_id_replace t l : map n_id (replace_named t l) = map n_id l.
Proof.
  unfold replace_named. rewrite map_map. apply map_ext. intros x.
  destruct (Nat.eqb (n_id x) (n_id t)) eqn:E; [apply Nat.eqb_eq in E; congruence|].
  reflexivity.
Qed.

Lemma transaction_err {A} (m : M A) s s' e :
  transaction m s = (s', Err e) -> s' = s.
Proof.
  unfold transaction. destruct (m s) as [[a s1]|e1]; intros H; congruence.
Qed.

Lemma delete_recipe_inv s P id s' u :
  delete s P TRecipe id = (s', Ok u) ->
  exists r, find_recipe P id (recipes s) = Some r /\
    s' = mkStore (filter (fun x => negb (Nat.eqb (rec_id x) (rec_id r))) (recipes s))
           (tags s) (ingredients s) (next_id s).
Proof.
  cbv [delete transaction delete_recipe find_recipe_m bind get_store ret fail modify].
  intros H. invert_ok. eauto.
Qed.

Lemma delete_named_inv s P T id s' u :
  T <> TRecipe ->
  delete s P T id = (s', Ok u) ->
  exists t, find_named P id (table (nested_of T) s) = Some t /\
    s' = mkStore (map (unlink (nested_of T) (n_id t)) (recipes s))
           (tags (set_table (nested_of T)
                   (filter (fun x => negb (Nat.eqb (n_id x) (n_id t)))
                      (table (nested_of T) s)) s))
           (ingredients (set_table (nested_of T)
                   (filter (fun x => negb (Nat.eqb (n_id x) (n_id t)))
                      (table (nested_of T) s)) s))
           (next_id s).
Proof.
  intros HT. destruct T; [contradiction| |];
  cbv [delete transaction delete_named find_named_m bind get_store ret fail modify];
  intros H; invert_ok; eauto.
Qed.

Lemma create_keeps_keys s P T f :
  wf s -> keys_below s ->
  wf (fst (create s P T f)) /\ keys_below (fst (create s P T f)).
Proof.
  intros (Hwr & Hwt & Hwi) (Hkr & Hkt & Hki).
  destruct (create s P T f) as [s' [e|err]] eqn:H; simpl;
    [|unfold create in H; apply transaction_err in H; subst s';
      split; [split; [|split]|split; [|split]]; assumption].
  destruct T.
  - destruct (create_recipe_inv _ _ _ _ _ H)
      as (t & tm & pr & ts & sA & igs & sB & _ & _ & _ & _ & _ & EA & EB & _ & ->).
    destruct (write_assoc_keys _ _ _ _ _ _ _ EA) as (HnA & HrA & HoA & newT & HtA & HndT & HfT).
    destruct (write_assoc_keys _ _ _ _ _ _ _ EB) as (HnB & HrB & HoB & newI & HtB & HndI & HfI).
    cbn [table other bump recipes tags ingredients next_id] in *.
    destruct (keys_append (tags s) newT (S (next_id s)) (next_id sA)) as (HT1 & HT2);
      [exact HnA | exact Hwt | (eapply Forall_lt_weaken; [exact Hkt | lia]) | exact HndT
      | exact HfT |].
    destruct (keys_append (ingredients s) newI (next_id sA) (next_id sB)) as (HI1 & HI2);
      [exact HnB | exact Hwi | (eapply Forall_lt_weaken; [exact Hki | lia]) | exact HndI
      | exact HfI |].
    destruct (keys_snoc (map rec_id (recipes s)) (next_id s) (next_id sB)) as (HR1 & HR2);
      [exact Hwr | exact Hkr | lia |].
    unfold wf, keys_below. cbn [recipes tags ingredients next_id].
    rewrite HrB, HrA, HoB, HtA, HtB, HoA, map_app. simpl.
    split; [split; [exact HR1|]; split; [exact HT1 | exact HI1]|].
    split; [exact HR2|]. split; [exact (Forall_lt_weaken _ _ _ HT2 HnB) | exact HI2].
  - cbv [create transaction create_named require check_name fresh_id bind ret modify fail
         nested_of wrap_named bump] in H.
    invert_ok.
    match goal with Hw : NoDup (map rec_id (recipes ?st)) |- _ => rename st into s end.
    cbn [set_table table recipes tags ingredients next_id].
    destruct (keys_snoc (map n_id (tags s)) (next_id s) (S (next_id s))) as (H1 & H2);
      [exact Hwt | exact Hkt | lia |].
    unfold wf, keys_below. cbn [recipes tags ingredients next_id]. rewrite map_app.
    split; [split; [exact Hwr|]; split; [exact H1 | exact Hwi]|].
    split; [(eapply Forall_lt_weaken; [exact Hkr | lia])|].
    split; [exact H2 | (eapply Forall_lt_weaken; [exact Hki | lia])].
  - cbv [create transaction create_named require check_name fresh_id bind ret modify fail
         nested_of wrap_named bump] in H.
    invert_ok.
    match goal with Hw : NoDup (map rec_id (recipes ?st)) |- _ => rename st into s end.
    cbn [set_table table recipes tags ingredients next_id].
    destruct (keys_snoc (map n_id (ingredients s)) (next_id s) (S (next_id s))) as (H1 & H2);
      [exact Hwi | exact Hki | lia |].
    unfold wf, keys_below. cbn [recipes tags ingredients next_id]. rewrite map_app.
    split; [split; [exact Hwr|]; split; [exact Hwt | exact H1]|].
    split; [(eapply Forall_lt_weaken; [exact Hkr | lia])|].
    split; [(eapply Forall_lt_weaken; [exact Hkt | lia]) | exact H2].
Qed.

Lemma update_keeps_keys s P T id f mode :
  wf s -> keys_below s ->
  wf (fst (update s P T id f mode)) /\ keys_below (fst (update s P T id f mode)).
Proof.
  intros (Hwr & Hwt & Hwi) (Hkr & Hkt & Hki).
  destruct (update s P T id f mode) as [s' [e|err]] eqn:H; simpl;
    [|unfold update in H; apply transaction_err in H; subst s';
      split; [split; [|split]|split; [|split]]; assumption].
  destruct T.
  - destruct (update_recipe_inv _ _ _ _ _ _ _ H)
      as (r & t & tm & pr & d & l & ts & sA & igs & sB & _ & _ & _ & _ & EA & EB & _ & ->).
    destruct (write_assoc_keys _ _ _ _ _ _ _ EA) as (HnA & HrA & HoA & newT & HtA & HndT & HfT).
    destruct (write_assoc_keys _ _ _ _ _ _ _ EB) as (HnB & HrB & HoB & newI & HtB & HndI & HfI).
    cbn [table other recipes tags ingredients next_id] in *.
    destruct (keys_append (tags s) newT (next_id s) (next_id sA)) as (HT1 & HT2);
      [exact HnA | exact Hwt | exact Hkt | exact HndT | exact HfT |].
    destruct (keys_append (ingredients s) newI (next_id sA) (next_id sB)) as (HI1 & HI2);
      [exact HnB | exact Hwi | (eapply Forall_lt_weaken; [exact Hki | lia]) | exact HndI
      | exact HfI |].
    unfold wf, keys_below. cbn [recipes tags ingredients next_id].
    rewrite map_rec_id_replace, HrB, HrA, HoB, HtA, HtB, HoA.
    split; [split; [exact Hwr|]; split; [exact HT1 | exact HI1]|].
    split; [(eapply Forall_lt_weaken; [exact Hkr | lia])|].
    split; [exact (Forall_lt_weaken _ _ _ HT2 HnB) | exact HI2].
  - destruct (update_named_inv s P TTag id f mode s' e ltac:(discriminate) H)
      as (t & n & _ & _ & _ & ->).
    unfold wf, keys_below. cbn [nested_of set_table table recipes tags ingredients next_id].
    rewrite map_n_id_replace.
    split; [split; [exact Hwr|]; split; [exact Hwt | exact Hwi]|].
    split; [exact Hkr|]. split; [exact Hkt | exact Hki].
  - destruct (update_named_inv s P TIngredient id f mode s' e ltac:(discriminate) H)
      as (t & n & _ & _ & _ & ->).
    unfold wf, keys_below. cbn [nested_of set_table table recipes tags ingredients next_id].
    rewrite map_n_id_replace.
    split; [split; [exact Hwr|]; split; [exact Hwt | exact Hwi]|].
    split; [exact Hkr|]. split; [exact Hkt | exact Hki].
Qed.

Lemma delete_keeps_keys s P T id :
  wf s -> keys_below s ->
  wf (fst (delete s P T id)) /\ keys_below (fst (delete s P T id)).
Proof.
  intros (Hwr & Hwt & Hwi) (Hkr & Hkt & Hki).
  destruct (delete s P T id) as [s' [u|err]] eqn:H; simpl;
    [|unfold delete in H; apply transaction_err in H; subst s';
      split; [split; [|split]|split; [|split]]; assumption].
  destruct T.
  - destruct (delete_recipe_inv _ _ _ _ _ H) as (r & _ & ->).
    unfold wf, keys_below. cbn [recipes tags ingredients next_id].
    split; [split; [exact (map_filter_nodup _ _ _ Hwr)|]; split; assumption|].
    split; [exact (map_filter_forall _ _ _ _ Hkr)|]. split; assumption.
  - destruct (delete_named_inv s P TTag id s' u ltac:(discriminate) H) as (t & _ & ->).
    unfold wf, keys_below. cbn [nested_of set_table table recipes tags ingredients next_id].
    rewrite map_rec_id_unlink.
    split; [split; [exact Hwr|]; split; [exact (map_filter_nodup _ _ _ Hwt) | exact Hwi]|].
    split; [exact Hkr|]. split; [exact (map_filter_forall _ _ _ _ Hkt) | exact Hki].
  - destruct (delete_named_inv s P TIngredient id s' u ltac:(discriminate) H) as (t & _ & ->).
    unfold wf, keys_below. cbn [nested_of set_table table recipes tags ingredients next_id].
    rewrite map_rec_id_unlink.
    split; [split; [exact Hwr|]; split; [exact Hwt | exact (map_filter_nodup _ _ _ Hwi)]|].
    split; [exact Hkr|]. split; [exact Hkt | exact (map_filter_forall _ _ _ _ Hki)].
Qed.

Lemma find_none_forall {A} (f : A -> bool) l :
  (forall x, In x l -> f x = false) -> find f l = None.
Proof.
  induction l as [|a l IH]; intros H; simpl; [reflexivity|].
  rewrite (H a (or_introl eq_refl)). apply IH. intros x Hx. exact (H x (or_intror Hx)).
Qed.

Lemma find_some_of_in {A} (f : A -> bool) l x :
  In x l -> f x = true -> exists y, find f l = Some y.
Proof.
  intros Hx Hf. destruct (find f l) as [y|] eqn:E; [eauto|].
  rewrite (find_none _ _ E x Hx) in Hf. discriminate.
Qed.

Lemma Forall2_map_self {A B} (R : A -> B -> Prop) (g : A -> B) l :
  (forall x, In x l -> R x (g x)) -> Forall2 R l (map g l).
Proof.
  induction l as [|a l IH]; intros H; simpl; constructor.
  - exact (H a (or_introl eq_refl)).
  - apply IH. intros x Hx. exact (H x (or_intror Hx)).
Qed.

Lemma unlink_assoc k i r :
  rec_id (unlink k i r) = rec_id r /\
  (forall j, In j (assoc k (unlink k i r)) <-> In j (assoc k r) /\ j <> i) /\
  assoc (other k) (unlink k i r) = assoc (other k) r.
Proof.
  destruct k; simpl; (split; [reflexivity|]); (split; [|reflexivity]); intros j;
    rewrite filter_In, Bool.negb_true_iff, Nat.eqb_neq; tauto.
Qed.

(** X: every repository call keeps primary keys unique in each table and
    below the id sequence, whether it succeeds or fails. *)
Theorem writes_keep_unique_keys s P T id f mode :
  wf s -> keys_below s ->
  (wf (fst (create s P T f)) /\ keys_below (fst (create s P T f))) /\
  (wf (fst (update s P T id f mode)) /\ keys_below (fst (update s P T id f mode))) /\
  (wf (fst (delete s P T id)) /\ keys_below (fst (delete s P T id))).
Proof.
  intros Hwf Hk.
  split; [exact (create_keeps_keys s P T f Hwf Hk)|].
  split; [exact (update_keeps_keys s P T id f mode Hwf Hk)|].
  exact (delete_keeps_keys s P T id Hwf Hk).
Qed.

(** X: deleting one of one's own recipes succeeds, removes exactly the rows
    with its key, leaves the tags and ingredients, and a later lookup of
    that key gives NotFound. *)
Theorem delete_own_recipe_removes s P r :
  In r (recipes s) -> r_user r = P ->
  let '(s', res) := delete s P TRecipe (rec_id r) in
  res = Ok tt /\
  (forall x, In x (recipes s') <-> In x (recipes s) /\ rec_id x <> rec_id r) /\
  tags s' = tags s /\ ingredients s' = ingredients s /\
  get_object P TRecipe (rec_id r) s' = Err NotFound.
Proof.
  intros Hin Hu.
  destruct (find_some_of_in (fun x => Nat.eqb (rec_id x) (rec_id r) && owned_recipe P x)
              (recipes s) r Hin) as (r0 & E).
  { unfold owned_recipe. rewrite Hu, !Nat.eqb_refl. reflexivity. }
  assert (Hid : rec_id r0 = rec_id r).
  { apply find_some in E as [_ E]. apply andb_prop in E as [E _].
    apply Nat.eqb_eq. exact E. }
  cbv [delete transaction delete_recipe find_recipe_m bind get_store ret fail modify].
  unfold find_recipe. rewrite E. cbn [recipes tags ingredients].
  split; [reflexivity|].
  split; [|split; [reflexivity|]; split; [reflexivity|]].
  - intros x. rewrite filter_In, Bool.negb_true_iff, Nat.eqb_neq, Hid. tauto.
  - unfold get_object, find_recipe. rewrite find_none_forall; [reflexivity|].
    intros x Hx. apply filter_In in Hx as [_ Hx].
    apply Bool.negb_true_iff, Nat.eqb_neq in Hx. rewrite Hid in Hx.
    apply Nat.eqb_neq in Hx. rewrite Hx. reflexivity.
Qed.

(** X: deleting one of one's own tags (ingredients) succeeds, removes exactly
    the rows with its key from that table, keeps every recipe and drops the
    key from each recipe's association set, the other set unchanged; a
    later lookup gives NotFound. *)
Theorem delete_own_named_unlinks s P T t :
  T <> TRecipe -> In t (table (nested_of T) s) -> n_user t = P ->
  let k := nested_of T in
  let '(s', res) := delete s P T (n_id t) in
  res = Ok tt /\
  (forall x, In x (table k s') <-> In x (table k s) /\ n_id x <> n_id t) /\
  table (other k) s' = table (other k) s /\
  Forall2 (fun r r' => rec_id r' = rec_id r /\
             (forall i, In i (assoc k r') <-> In i (assoc k r) /\ i <> n_id t) /\
             assoc (other k) r' = assoc (other k) r) (recipes s) (recipes s') /\
  get_object P T (n_id t) s' = Err NotFound.
Proof.
  intros HT Hin Hu.
  destruct (find_some_of_in (fun x => Nat.eqb (n_id x) (n_id t) && owned_named P x)
              (table (nested_of T) s) t Hin) as (t0 & E).
  { unfold owned_named. rewrite Hu, !Nat.eqb_refl. reflexivity. }
  assert (Hid : n_id t0 = n_id t).
  { apply find_some in E as [_ E]. apply andb_prop in E as [E _].
    apply Nat.eqb_eq. exact E. }
  assert (Hfilter : forall x, In x (filter (fun x => negb (Nat.eqb (n_id x) (n_id t0)))
                                    (table (nested_of T) s)) <->
                              In x (table (nested_of T) s) /\ n_id x <> n_id t).
  { intros x. rewrite filter_In, Bool.negb_true_iff, Nat.eqb_neq, Hid. tauto. }
  assert (Hnone : find_named P (n_id t)
                    (filter (fun x => negb (Nat.eqb (n_id x) (n_id t0)))
                       (table (nested_of T) s)) = None).
  { unfold find_named. apply find_none_forall. intros x Hx.
    apply filter_In in Hx as [_ Hx]. apply Bool.negb_true_iff, Nat.eqb_neq in Hx.
    rewrite Hid in Hx. apply Nat.eqb_neq in Hx. rewrite Hx. reflexivity. }
  assert (HF : Forall2 (fun r r' => rec_id r' = rec_id r /\
             (forall i, In i (assoc (nested_of T) r') <->
                        In i (assoc (nested_of T) r) /\ i <> n_id t) /\
             assoc (other (nested_of T)) r' = assoc (other (nested_of T)) r)
             (recipes s) (map (unlink (nested_of T) (n_id t0)) (recipes s))).
  { apply Forall2_map_self. intros r _. rewrite <- Hid. apply unlink_assoc. }
  change (find_named P (n_id t) (table (nested_of T) s) = Some t0) in E.
  destruct T; [contradiction| |]; cbv zeta;
    cbv [delete transaction delete_named find_named_m bind get_store ret fail modify];
    cbn [nested_of table] in E, Hfilter, Hnone, HF |- *; rewrite E;
    cbn [set_table table other recipes tags ingredients next_id];
    (split; [reflexivity|]); (split; [exact Hfilter|]); (split; [reflexivity|]);
    (split; [exact HF|]); unfold get_object; cbn [tags ingredients];
    rewrite Hnone; reflexivity.
Qed.

(** X: creating a recipe with a title, a time and a price that are not
    negative, and with tag and ingredient descriptors whose names are not
    blank, succeeds; the new recipe carries those values, the given or
    blank description and link and the principal as owner, and looking up
    its key returns it. *)
Theorem create_recipe_then_get s P f t tm pr :
  keys_below s ->
  p_title f = Some t -> p_time_minutes f = Some tm -> p_price f = Some pr ->
  (0 <= tm)%Z -> (0 <= pr)%Z ->
  forallb name_ok (default [] (p_tags f)) = true ->
  forallb name_ok (default [] (p_ingredients f)) = true ->
  exists r s', create s P TRecipe f = (s', Ok (ERecipe r)) /\
    title r = t /\ time_minutes r = tm /\ price r = pr /\
    description r = default EmptyString (p_description f) /\
    link r = default EmptyString (p_link f) /\ r_user r = P /\
    get_object P TRecipe (rec_id r) s' = Ok (ERecipe r).
Proof.
  intros (Hkr & _ & _) Ht Htm Hpr Htm0 Hpr0 Hok1 Hok2.
  destruct (write_assoc_ok NTags P (p_tags f) [] (bump s) Hok1) as (ts & sA & EA).
  destruct (write_assoc_ok NIngredients P (p_ingredients f) [] sA Hok2) as (igs & sB & EB).
  destruct (write_assoc_keys _ _ _ _ _ _ _ EA) as (_ & HrA & _).
  destruct (write_assoc_keys _ _ _ _ _ _ _ EB) as (_ & HrB & _).
  cbv [create transaction create_recipe require check_nonneg bind ret fail fresh_id modify].
  rewrite Ht, Htm, Hpr.
  rewrite (proj2 (Z.ltb_ge tm 0) Htm0), (proj2 (Z.ltb_ge pr 0) Hpr0).
  rewrite EA, EB.
  eexists _, _. split; [reflexivity|]. cbn [title time_minutes price description link r_user rec_id].
  do 6 (split; [reflexivity|]).
  unfold get_object, find_recipe. cbn [recipes]. rewrite find_app, HrB, HrA.
  cbn [recipes bump]. rewrite find_none_forall.
  - simpl. rewrite Nat.eqb_refl. unfold owned_recipe. simpl. rewrite Nat.eqb_refl.
    reflexivity.
  - intros x Hx. rewrite Forall_forall in Hkr.
    specialize (Hkr (rec_id x) (in_map _ _ _ Hx)).
    destruct (Nat.eqb_spec (rec_id x) (next_id s)); [lia | reflexivity].
Qed.

Lemma writes_keep_unique_keys_witness :
  wf thai_store1 /\ keys_below thai_store1 /\
  (wf (fst (create thai_store1 1 TRecipe thai_payload)) /\
   keys_below (fst (create thai_store1 1 TRecipe thai_payload))) /\
  (wf (fst (update thai_store1 1 TRecipe 0 thai_payload Partial)) /\
   keys_below (fst (update thai_store1 1 TRecipe 0 thai_payload Partial))) /\
  (wf (fst (delete thai_store1 1 TRecipe 0)) /\
   keys_below (fst (delete thai_store1 1 TRecipe 0))).
Proof.
  assert (Hwf : wf thai_store1).
  { unfold wf. vm_compute.
    repeat split; repeat constructor; simpl; intros H; repeat destruct H as [H|H];
      try discriminate; contradiction. }
  assert (Hk : keys_below thai_store1) by (unfold keys_below; vm_compute; repeat constructor).
  split; [exact Hwf|]. split; [exact Hk|].
  exact (writes_keep_unique_keys thai_store1 1 TRecipe 0 _ Partial Hwf Hk).
Defined.

Lemma delete_own_recipe_removes_witness :
  In thai_recipe1 (recipes thai_store1) /\ r_user thai_recipe1 = 1 /\
  let '(s', res) := delete thai_store1 1 TRecipe (rec_id thai_recipe1) in
  res = Ok tt /\
  (forall x, In x (recipes s') <->
             In x (recipes thai_store1) /\ rec_id x <> rec_id thai_recipe1) /\
  tags s' = tags thai_store1 /\ ingredients s' = ingredients thai_store1 /\
  get_object 1 TRecipe (rec_id thai_recipe1) s' = Err NotFound.
Proof.
  assert (H1 : In thai_recipe1 (recipes thai_store1)) by (vm_compute; left; reflexivity).
  assert (H2 : r_user thai_recipe1 = 1) by reflexivity.
  split; [exact H1|]. split; [exact H2|].
  exact (delete_own_recipe_removes thai_store1 1 thai_recipe1 H1 H2).
Defined.

(** The tag "Thai" of [thai_store1]. *)
Lemma delete_own_named_unlinks_witness :
  TTag <> TRecipe /\ In (mkNamed 1 "Thai" 1) (table (nested_of TTag) thai_store1) /\
  n_user (mkNamed 1 "Thai" 1) = 1 /\
  let k := nested_of TTag in
  let '(s', res) := delete thai_store1 1 TTag (n_id (mkNamed 1 "Thai" 1)) in
  res = Ok tt /\
  (forall x, In x (table k s') <->
             In x (table k thai_store1) /\ n_id x <> n_id (mkNamed 1 "Thai" 1)) /\
  table (other k) s' = table (other k) thai_store1 /\
  Forall2 (fun r r' => rec_id r' = rec_id r /\
             (forall i, In i (assoc k r') <->
                        In i (assoc k r) /\ i <> n_id (mkNamed 1 "Thai" 1)) /\
             assoc (other k) r' = assoc (other k) r) (recipes thai_store1) (recipes s') /\
  get_object 1 TTag (n_id (mkNamed 1 "Thai" 1)) s' = Err NotFound.
Proof.
  assert (H0 : TTag <> TRecipe) by discriminate.
  assert (H1 : In (mkNamed 1 "Thai" 1) (table (nested_of TTag) thai_store1))
    by (vm_compute; left; reflexivity).
  assert (H2 : n_user (mkNamed 1 "Thai" 1) = 1) by reflexivity.
  split; [exact H0|]. split; [exact H1|]. split; [exact H2|].
  exact (delete_own_named_unlinks thai_store1 1 TTag _ H0 H1 H2).
Defined.

Lemma create_recipe_then_get_witness :
  keys_below thai_store1 /\
  exists r s', create thai_store1 1 TRecipe thai_payload = (s', Ok (ERecipe r)) /\
    title r = "Sample recipe title"%string /\ time_minutes r = 22%Z /\ price r = 525%Z /\
    description r = default EmptyString (p_description thai_payload) /\
    link r = default EmptyString (p_link thai_payload) /\ r_user r = 1 /\
    get_object 1 TRecipe (rec_id r) s' = Ok (ERecipe r).
Proof.
  assert (Hk : keys_below thai_store1) by (unfold keys_below; vm_compute; repeat constructor).
  split; [exact Hk|].
  exact (create_recipe_then_get thai_store1 1 thai_payload _ _ _ Hk eq_refl eq_refl eq_refl
           ltac:(lia) ltac:(lia) eq_refl eq_refl).
Defined.
